(** * cinode/golib: the encrypted, content-addressed blob store

    A shallow embedding of the Go package [blobstore]
    (hashvalidation.go, blobstorage.go, the directory blob writer) together
    with the parts of the standard library it calls ([encoding/hex],
    [crypto/sha512], [io.Copy], [bytes.Buffer], [sort.Sort]) and of the
    cipher factory it is built on.

    Part I holds the definitions, Part II the theorems. *)

From Stdlib Require Import ZArith List String Ascii Lia Bool.
From Stdlib Require Import Permutation Sorted OrderedTypeEx.
From Stdlib Require Strings.Byte DecimalString.
From stdpp Require Import gmap strings sorting.

Import ListNotations.
Local Open Scope Z_scope.
Local Open Scope list_scope.

Abbreviation byte := Byte.byte.

(* ===================================================================== *)
(** * Part I: definitions                                                  *)
(* ===================================================================== *)

(** ** Bytes *)

Definition Z_of_byte (b : byte) : Z := Z.of_N (Byte.to_N b).

Definition byte_of_N (n : N) : byte :=
  match Byte.of_N n with
  | Some b => b
  | None => Byte.x00
  end.

(** Conversion [byte(z)] of Go: the low eight bits. *)
Definition byte_of_Z (z : Z) : byte := byte_of_N (Z.to_N (z mod 256)).

(** [a ^ b] on bytes. *)
Definition byte_xor (a b : byte) : byte :=
  byte_of_N (N.lxor (Byte.to_N a) (Byte.to_N b)).

(** [len(p)] as a Go [int]. *)
Definition len {A} (l : list A) : Z := Z.of_nat (List.length l).

(** [[]byte(s)] and [string(b)]. *)
Definition bytes_of_string (s : string) : list byte := list_byte_of_string s.
Definition string_of_bytes (b : list byte) : string := string_of_list_byte b.

(** ** encoding/hex *)

Module hex.

(** [const hextable = "0123456789abcdef"] *)
Definition hextable : list ascii :=
  list_ascii_of_string "0123456789abcdef".

Definition digit (n : N) : ascii :=
  nth (N.to_nat n) hextable "0"%char.

(** [EncodeToString]: for every byte [v], [hextable[v>>4]] then
    [hextable[v&0x0f]]. *)
Fixpoint EncodeToString (src : list byte) : string :=
  match src with
  | [] => EmptyString
  | v :: rest =>
      String (digit (N.shiftr (Byte.to_N v) 4))
        (String (digit (N.land (Byte.to_N v) 15)) (EncodeToString rest))
  end.

(** [fromHexChar]: digits and both cases of the letters a to f. *)
Definition fromHexChar (c : ascii) : option N :=
  let n := N_of_ascii c in
  if ((48 <=? n) && (n <=? 57))%N then Some (n - 48)%N
  else if ((97 <=? n) && (n <=? 102))%N then Some (n - 97 + 10)%N
  else if ((65 <=? n) && (n <=? 70))%N then Some (n - 65 + 10)%N
  else None.

(** [DecodeString]: [None] stands for [ErrLength] (odd length) and
    [InvalidByteError]. *)
Fixpoint DecodeString (s : string) : option (list byte) :=
  match s with
  | EmptyString => Some []
  | String _ EmptyString => None
  | String c1 (String c2 rest) =>
      match fromHexChar c1, fromHexChar c2, DecodeString rest with
      | Some a, Some b, Some bs => Some (byte_of_N (a * 16 + b) :: bs)
      | _, _, _ => None
      end
  end.

Definition is_lower_hex (c : ascii) : Prop := In c hextable.

End hex.

(** ** crypto/sha512 (FIPS 180-4) *)

Module sha512.

(** [Size]: the size, in bytes, of a SHA-512 checksum. *)
Definition Size : Z := 64.
Definition BlockSize : nat := 128.

Definition w64 (x : Z) : Z := x mod 2 ^ 64.
Definition add64 (x y : Z) : Z := w64 (x + y).
Definition rotr (n x : Z) : Z :=
  Z.lor (Z.shiftr x n) (w64 (Z.shiftl x (64 - n))).
Definition not64 (x : Z) : Z := 2 ^ 64 - 1 - x.

Definition Ch (x y z : Z) : Z := Z.lxor (Z.land x y) (Z.land (not64 x) z).
Definition Maj (x y z : Z) : Z :=
  Z.lxor (Z.lxor (Z.land x y) (Z.land x z)) (Z.land y z).
Definition Sigma0 (x : Z) : Z :=
  Z.lxor (Z.lxor (rotr 28 x) (rotr 34 x)) (rotr 39 x).
Definition Sigma1 (x : Z) : Z :=
  Z.lxor (Z.lxor (rotr 14 x) (rotr 18 x)) (rotr 41 x).
Definition sigma0 (x : Z) : Z :=
  Z.lxor (Z.lxor (rotr 1 x) (rotr 8 x)) (Z.shiftr x 7).
Definition sigma1 (x : Z) : Z :=
  Z.lxor (Z.lxor (rotr 19 x) (rotr 61 x)) (Z.shiftr x 6).

Definition init : list Z :=
  [ 0x6a09e667f3bcc908; 0xbb67ae8584caa73b; 0x3c6ef372fe94f82b;
    0xa54ff53a5f1d36f1; 0x510e527fade682d1; 0x9b05688c2b3e6c1f;
    0x1f83d9abfb41bd6b; 0x5be0cd19137e2179 ].

Definition K : list Z :=
  [ 0x428a2f98d728ae22; 0x7137449123ef65cd; 0xb5c0fbcfec4d3b2f; 0xe9b5dba58189dbbc;
    0x3956c25bf348b538; 0x59f111f1b605d019; 0x923f82a4af194f9b; 0xab1c5ed5da6d8118;
    0xd807aa98a3030242; 0x12835b0145706fbe; 0x243185be4ee4b28c; 0x550c7dc3d5ffb4e2;
    0x72be5d74f27b896f; 0x80deb1fe3b1696b1; 0x9bdc06a725c71235; 0xc19bf174cf692694;
    0xe49b69c19ef14ad2; 0xefbe4786384f25e3; 0x0fc19dc68b8cd5b5; 0x240ca1cc77ac9c65;
    0x2de92c6f592b0275; 0x4a7484aa6ea6e483; 0x5cb0a9dcbd41fbd4; 0x76f988da831153b5;
    0x983e5152ee66dfab; 0xa831c66d2db43210; 0xb00327c898fb213f; 0xbf597fc7beef0ee4;
    0xc6e00bf33da88fc2; 0xd5a79147930aa725; 0x06ca6351e003826f; 0x142929670a0e6e70;
    0x27b70a8546d22ffc; 0x2e1b21385c26c926; 0x4d2c6dfc5ac42aed; 0x53380d139d95b3df;
    0x650a73548baf63de; 0x766a0abb3c77b2a8; 0x81c2c92e47edaee6; 0x92722c851482353b;
    0xa2bfe8a14cf10364; 0xa81a664bbc423001; 0xc24b8b70d0f89791; 0xc76c51a30654be30;
    0xd192e819d6ef5218; 0xd69906245565a910; 0xf40e35855771202a; 0x106aa07032bbd1b8;
    0x19a4c116b8d2d0c8; 0x1e376c085141ab53; 0x2748774cdf8eeb99; 0x34b0bcb5e19b48a8;
    0x391c0cb3c5c95a63; 0x4ed8aa4ae3418acb; 0x5b9cca4f7763e373; 0x682e6ff3d6b2b8a3;
    0x748f82ee5defb2fc; 0x78a5636f43172f60; 0x84c87814a1f0ab72; 0x8cc702081a6439ec;
    0x90befffa23631e28; 0xa4506cebde82bde9; 0xbef9a3f7b2c67915; 0xc67178f2e372532b;
    0xca273eceea26619c; 0xd186b8c721c0c207; 0xeada7dd6cde0eb1e; 0xf57d4f7fee6ed178;
    0x06f067aa72176fba; 0x0a637dc5a2c898a6; 0x113f9804bef90dae; 0x1b710b35131c471b;
    0x28db77f523047d84; 0x32caab7b40c72493; 0x3c9ebe0a15c9bebc; 0x431d67c49c100d4c;
    0x4cc5d4becb3e42b6; 0x597f299cfc657e2a; 0x5fcb6fab3ad6faec; 0x6c44198c4a475817 ].

(** Big-endian words. *)
Definition be_word (bs : list byte) : Z :=
  fold_left (fun acc b => acc * 256 + Z_of_byte b) bs 0.

Fixpoint be_bytes (n : nat) (x : Z) : list byte :=
  match n with
  | O => []
  | S k => be_bytes k (x / 256) ++ [byte_of_Z x]
  end.

(** The message followed by 0x80, zeroes up to 112 modulo 128, and the
    length in bits on sixteen bytes. *)
Definition pad (msg : list byte) : list byte :=
  let l := List.length msg in
  let k := ((BlockSize + 112 - (l + 1) mod BlockSize) mod BlockSize)%nat in
  msg ++ [Byte.x80] ++ repeat Byte.x00 k ++ be_bytes 16 (8 * Z.of_nat l).

(** [n] words of eight bytes from the front of [bs]. *)
Fixpoint words (n : nat) (bs : list byte) : list Z :=
  match n with
  | O => []
  | S k => be_word (firstn 8 bs) :: words k (skipn 8 bs)
  end.

(** The message schedule, most recent word first: [rev_w] holds
    [W(t-1), W(t-2), ...]. *)
Fixpoint schedule (n : nat) (rev_w : list Z) : list Z :=
  match n with
  | O => rev_w
  | S k =>
      let w := add64 (add64 (sigma1 (nth 1 rev_w 0)) (nth 6 rev_w 0))
                     (add64 (sigma0 (nth 14 rev_w 0)) (nth 15 rev_w 0)) in
      schedule k (w :: rev_w)
  end.

Record regs := Regs { ra : Z; rb : Z; rc : Z; rd : Z;
                      re : Z; rf : Z; rg : Z; rh : Z }.

Definition round (r : regs) (kw : Z * Z) : regs :=
  let t1 := add64 (add64 (add64 (rh r) (Sigma1 (re r)))
                         (add64 (Ch (re r) (rf r) (rg r)) (fst kw))) (snd kw) in
  let t2 := add64 (Sigma0 (ra r)) (Maj (ra r) (rb r) (rc r)) in
  Regs (add64 t1 t2) (ra r) (rb r) (rc r) (add64 (rd r) t1) (re r) (rf r) (rg r).

Definition regs_of (h : list Z) : regs :=
  Regs (nth 0 h 0) (nth 1 h 0) (nth 2 h 0) (nth 3 h 0)
       (nth 4 h 0) (nth 5 h 0) (nth 6 h 0) (nth 7 h 0).

Definition list_of (r : regs) : list Z :=
  [ra r; rb r; rc r; rd r; re r; rf r; rg r; rh r].

(** One 128-byte block. *)
Definition block (h : regs) (blk : list byte) : regs :=
  let w := rev (schedule 64 (rev (words 16 blk))) in
  let r := fold_left round (combine K w) h in
  Regs (add64 (ra h) (ra r)) (add64 (rb h) (rb r))
       (add64 (rc h) (rc r)) (add64 (rd h) (rd r))
       (add64 (re h) (re r)) (add64 (rf h) (rf r))
       (add64 (rg h) (rg r)) (add64 (rh h) (rh r)).

Fixpoint blocks (n : nat) (h : regs) (bs : list byte) : regs :=
  match n with
  | O => h
  | S k => blocks k (block h (firstn BlockSize bs)) (skipn BlockSize bs)
  end.

(** [Sum512]: the digest of a whole message. *)
Definition Sum512 (msg : list byte) : list byte :=
  let p := pad msg in
  let h := blocks (List.length p / BlockSize)%nat (regs_of init) p in
  flat_map (be_bytes 8) (list_of h).

(** The [hash.Hash] returned by [sha512.New()]: the bytes written so far.
    [Write] never returns an error. *)
Definition digest := list byte.
Definition New : digest := [].
Definition Write (d : digest) (p : list byte) : digest := d ++ p.
Definition Reset (d : digest) : digest := [].
(** [d.Sum(nil)] *)
Definition Sum (d : digest) : list byte := Sum512 d.

End sha512.

Arguments sha512.Sum512 : simpl never.

(** ** Errors, panics, readers and writers *)

(** The error values of the packages, [io.ErrShortWrite], and any other
    error a backend or a reader returns ([ErrIO]). *)
Inductive error : Type :=
| ErrInsufficientKeySource
| ErrInvalidKey
| ErrBIDCollision
| ErrBIDNotFound
| ErrShortWrite
| ErrIO (msg : string).

(** A call either returns or panics. *)
Inductive outcome (A : Type) : Type :=
| Returns (a : A)
| Panics (msg : string).
Arguments Returns {A} a.
Arguments Panics {A} msg.

(** An [io.Reader], by what its successive [Read] calls deliver: a chunk
    of bytes and more to come, [io.EOF], or an error. *)
Inductive Reader : Type :=
| EOF
| Chunk (p : list byte) (next : Reader)
| Failing (err : error).

(** Everything the reader delivers before it stops. *)
Fixpoint delivered (r : Reader) : list byte :=
  match r with
  | EOF => []
  | Chunk p next => p ++ delivered next
  | Failing _ => []
  end.

(** The error the reader stops with, if it is not [io.EOF]. *)
Fixpoint readError (r : Reader) : option error :=
  match r with
  | EOF => None
  | Chunk _ next => readError next
  | Failing e => Some e
  end.

(** [bytes.NewReader(b)] *)
Definition bytes_NewReader (b : list byte) : Reader :=
  match b with
  | [] => EOF
  | _ => Chunk b EOF
  end.

(** An [io.Writer] with its state: [Write(p)] returns [(n, err)]. *)
Class Writer (W : Type) : Type :=
  write : W -> list byte -> W * (Z * option error).

(** [errInvalidWrite] of package io. *)
Definition errInvalidWrite : error := ErrIO "invalid write result".

(** [io.Copy(dst, src)]: read until EOF or an error, writing every chunk
    read. A count below zero or above the bytes offered is an invalid
    write, the writer's own error taking precedence; then comes the
    writer's error; then a count below the bytes offered is a short write.
    The count of bytes copied is not modelled, no caller here looks at it. *)
Fixpoint io_Copy {W} `{Writer W} (dst : W) (src : Reader) : W * option error :=
  match src with
  | EOF => (dst, None)
  | Failing e => (dst, Some e)
  | Chunk [] next => io_Copy dst next
  | Chunk p next =>
      let '(dst', (nw, ew)) := write dst p in
      if (nw <? 0) || (len p <? nw) then
        (dst', Some (match ew with Some e => e | None => errInvalidWrite end))
      else
        match ew with
        | Some e => (dst', Some e)
        | None =>
            if nw =? len p then io_Copy dst' next
            else (dst', Some ErrShortWrite)
        end
  end.

#[export] Instance digest_Writer : Writer sha512.digest :=
  fun d p => (sha512.Write d p, (len p, None)).

(** ** blobstorage.go: the storage interfaces

    [BlobStorage] and [WriteFinalizeCanceler] are Go interfaces over
    mutable objects. The state of a storage and of all its staged writers
    is a [World]; a [BlobWriter] names one staged writer in it. *)
Record BlobStorage : Type := {
  World : Type;
  BlobWriter : Type;
  (** [NewBlobWriter(blobId) (writer, err)] *)
  NewBlobWriter : string -> World -> (BlobWriter + error) * World;
  (** [NewBlobReader(blobId) (reader, err)] *)
  NewBlobReader : string -> World -> (Reader + error) * World;
  (** [writer.Write(p) (n, err)] *)
  Write : BlobWriter -> list byte -> World -> (Z * option error) * World;
  (** [writer.Finalize() error] *)
  Finalize : BlobWriter -> World -> option error * World;
  (** [writer.Cancel() error] *)
  Cancel : BlobWriter -> World -> option error * World;
}.

(** The calls a storage receives. *)
Inductive Call (H : Type) : Type :=
| CallNewBlobWriter (blobId : string) (opened : option H)
| CallNewBlobReader (blobId : string)
| CallWrite (w : H) (p : list byte)
| CallFinalize (w : H) (failed : option error)
| CallCancel (w : H).
Arguments CallNewBlobWriter {H} blobId opened.
Arguments CallNewBlobReader {H} blobId.
Arguments CallWrite {H} w p.
Arguments CallFinalize {H} w failed.
Arguments CallCancel {H} w.

Definition opened_of {A B} (r : A + B) : option A :=
  match r with inl a => Some a | inr _ => None end.

(** A storage that behaves as [storage] and records every call it receives, in
    order, next to the world of [storage]. *)
Definition Recording (storage : BlobStorage) : BlobStorage := {|
  World := World storage * list (Call (BlobWriter storage));
  BlobWriter := BlobWriter storage;
  NewBlobWriter := fun blobId '(st, log) =>
    let (r, st') := NewBlobWriter storage blobId st in
    (r, (st', log ++ [CallNewBlobWriter blobId (opened_of r)]));
  NewBlobReader := fun blobId '(st, log) =>
    let (r, st') := NewBlobReader storage blobId st in
    (r, (st', log ++ [CallNewBlobReader blobId]));
  Write := fun w p '(st, log) =>
    let (r, st') := Write storage w p st in
    (r, (st', log ++ [CallWrite w p]));
  Finalize := fun w '(st, log) =>
    let (r, st') := Finalize storage w st in
    (r, (st', log ++ [CallFinalize w r]));
  Cancel := fun w '(st, log) =>
    let (r, st') := Cancel storage w st in
    (r, (st', log ++ [CallCancel w]));
|}.

(** ** The cipher factory

    The factory package is present through its tests only. *)

(** Modelled from the spec: the policy constants and the primitives of the
    factory, whose declarations are missing. [MinKeySourceBytes] is what
    [GetMinKeySourceBytes()] returns; [deriveKey] turns a key source into
    the symmetric key, of [KeyBytes] bytes; [keyStream key iv i] is byte [i]
    of the key stream of the "keyed stream encryptor", and covers the
    "usable initialization state" derived from an iv of any length. *)
Class CipherSuite : Type := {
  MinKeySourceBytes : Z;
  KeyBytes : nat;
  deriveKey : list byte -> list byte;
  keyStream : list byte -> list byte -> nat -> byte;
  MinKeySourceBytes_floor : 16 <= MinKeySourceBytes;
  deriveKey_length : forall keySource,
    MinKeySourceBytes <= len keySource ->
    List.length (deriveKey keySource) = KeyBytes;
}.

(** The algorithm tag a key string starts with: the keys expected by
    fileblobwriter_test.go all start with "01". *)
Definition keyTag : byte := Byte.x01.

(** Modelled from the spec: "Key as an opaque printable string beginning
    with an algorithm/version tag followed by hex-encoded key material". *)
Definition encodeKey (k : list byte) : string :=
  hex.EncodeToString (keyTag :: k).

(** Modelled from the spec: a key string that is "empty, malformed, or
    carries an unrecognized algorithm tag" does not parse. *)
Definition parseKey `{CipherSuite} (key : string) : option (list byte) :=
  match hex.DecodeString key with
  | Some (tag :: k) =>
      if Byte.eqb tag keyTag && (List.length k =? KeyBytes)%nat
      then Some k else None
  | _ => None
  end.

(** The stream cipher at byte offset [pos]. *)
Fixpoint xorKeyStream `{CipherSuite} (k iv : list byte) (pos : nat)
    (p : list byte) : list byte :=
  match p with
  | [] => []
  | b :: rest => byte_xor b (keyStream k iv pos) :: xorKeyStream k iv (S pos) rest
  end.

(** The streaming sink returned by [CreateEncryptor]: key, iv, the number
    of bytes encrypted so far, and the sink it forwards to (the caller's
    [bytes.Buffer], which it holds by reference). *)
Record Encryptor : Type := {
  enc_key : list byte;
  enc_iv : list byte;
  enc_pos : nat;
  enc_sink : list byte;
}.

(** Modelled from the spec: "every byte written is encrypted and forwarded
    to sink immediately, and the count of bytes accepted always equals
    bytes offered". *)
#[export] Instance Encryptor_Writer `{CipherSuite} : Writer Encryptor :=
  fun e p =>
    ({| enc_key := enc_key e; enc_iv := enc_iv e;
        enc_pos := enc_pos e + List.length p;
        enc_sink := enc_sink e ++ xorKeyStream (enc_key e) (enc_iv e) (enc_pos e) p |},
     (len p, None)).

(** Modelled from the spec: [CreateEncryptor(keySource, iv, sink)] "fails
    with InsufficientKeySource if len(keySource) < MinKeySourceBytes;
    otherwise never fails on iv length". On failure the Go function returns
    a nil writer and the empty key (TestFactoryEncryptorCreationFailure). *)
Definition CreateEncryptor `{CipherSuite} (keySource iv sink : list byte)
    : (Encryptor * string) + error :=
  if len keySource <? MinKeySourceBytes then inr ErrInsufficientKeySource
  else
    let k := deriveKey keySource in
    inl ({| enc_key := k; enc_iv := iv; enc_pos := 0; enc_sink := sink |},
         encodeKey k).

(** The lazy decrypting reader returned by [CreateDecryptor]. *)
Fixpoint decrypting `{CipherSuite} (k iv : list byte) (pos : nat)
    (source : Reader) : Reader :=
  match source with
  | EOF => EOF
  | Failing e => Failing e
  | Chunk p next =>
      Chunk (xorKeyStream k iv pos p) (decrypting k iv (pos + List.length p) next)
  end.

(** Modelled from the spec: [CreateDecryptor(key, iv, source)] "fails with a
    parse/format error when key is empty, malformed, or carries an
    unrecognized algorithm tag. Returns a lazy, streaming decrypting reader
    over source". *)
Definition CreateDecryptor `{CipherSuite} (key : string) (iv : list byte)
    (source : Reader) : Reader + error :=
  match parseKey key with
  | Some k => inl (decrypting k iv 0 source)
  | None => inr ErrInvalidKey
  end.

(** [createEncryptor] of package blobstore: the factory's. *)
Definition createEncryptor `{CipherSuite} := CreateEncryptor.

(** ** hashvalidation.go *)

(** The validation-method tag: the blobs expected by fileblobwriter_test.go
    all start with the byte 01. *)
Definition validationMethodHash : byte := Byte.x01.

(** The named results [(bid, key, err)]. *)
Record result : Type := Result {
  bid : string;
  key : string;
  err : option error;
}.

(** [bytes.Buffer.WriteTo(w)], which [io.Copy(w, &buffer)] calls: nothing
    for an empty buffer, else one [Write] of the whole content; a count
    above the content's length panics, an error is returned as it is, and a
    smaller count is [io.ErrShortWrite]. *)
Definition Buffer_WriteTo (storage : BlobStorage) (w : BlobWriter storage)
    (buf : list byte) (st : World storage) : outcome (option error) * World storage :=
  match buf with
  | [] => (Returns None, st)
  | _ =>
      let '((m, e), st') := Write storage w buf st in
      if len buf <? m then (Panics "bytes.Buffer.WriteTo: invalid Write count", st')
      else match e with
           | Some _ => (Returns e, st')
           | None => if m =? len buf then (Returns None, st')
                     else (Returns (Some ErrShortWrite), st')
           end
  end.

Definition createHashValidatedBlobFromReaderGenerator `{CipherSuite}
    (storage : BlobStorage) (readerGenerator : nat -> Reader) (st : World storage)
    : outcome result * World storage :=
  (* Generate the key *)
  let hasher := sha512.New in
  let hasher := fst (io_Copy hasher (readerGenerator 0%nat)) in
  let keySource := sha512.Sum hasher in
  (* Generate the encrypted content *)
  let encryptedBuffer := [] in
  match createEncryptor keySource [] encryptedBuffer with
  | inr e => (Returns (Result "" "" (Some e)), st)
  | inl (encryptedWriter, key) =>
      let encryptedWriter := fst (io_Copy encryptedWriter (readerGenerator 1%nat)) in
      let encryptedBuffer := enc_sink encryptedWriter in
      (* Generate blob id *)
      let hasher := sha512.Reset hasher in
      let hasher := fst (io_Copy hasher (bytes_NewReader encryptedBuffer)) in
      let bid := hex.EncodeToString (sha512.Sum hasher) in
      (* Finally generate the blob itself *)
      match NewBlobWriter storage bid st with
      | (inr e, st) => (Returns (Result bid key (Some e)), st)
      | (inl blobWriter, st) =>
          (* the deferred function: err != nil at return cancels *)
          let failed e st :=
            (Returns (Result bid key (Some e)), snd (Cancel storage blobWriter st)) in
          match Write storage blobWriter [validationMethodHash] st with
          | ((_, Some e), st) => failed e st
          | ((_, None), st) =>
              match Buffer_WriteTo storage blobWriter encryptedBuffer st with
              | (Panics msg, st) => (Panics msg, st)
              | (Returns (Some e), st) => failed e st
              | (Returns None, st) =>
                  match Finalize storage blobWriter st with
                  | (Some e, st) => failed e st
                  | (None, st) => (Returns (Result bid key None), st)
                  end
              end
          end
      end
  end.

(** ** The directory blob writer *)

(** The declarations the directory writer uses and that are missing:
    the type [DirEntry], of which the code reads the field [Name] and
    calls the method [serialize]; [serializeInt]; and the constants
    [maxSimpleDirEntries] and [blobTypeSimpleStaticDir]. *)
Class DirFormat : Type := {
  DirEntry : Type;
  Name : DirEntry -> string;
  serialize : DirEntry -> list byte;
  serializeInt : Z -> list byte;
  maxSimpleDirEntries : Z;
  blobTypeSimpleStaticDir : byte;
}.

(** [sortByName.Less]: [s[i].Name < s[j].Name], the bytewise order of Go
    strings. *)
Definition Less `{DirFormat} (a b : DirEntry) : bool :=
  String.ltb (Name a) (Name b).

(** [sort.insertionSort], the algorithm of [sort.Sort] on short slices:
    [for i := a + 1; i < b; i++ { for j := i; j > a && Less(j, j-1); j-- {
    Swap(j, j-1) } }]. [sink x before] moves [x] down the already sorted
    elements, given nearest first. *)
Fixpoint sink `{DirFormat} (x : DirEntry) (before : list DirEntry)
    : list DirEntry :=
  match before with
  | [] => [x]
  | y :: ys => if Less x y then y :: sink x ys else x :: y :: ys
  end.

(** What [insertionSort(data, 0, len(data))] leaves of a slice: every
    element in turn sinks into those before it. *)
Definition insertionSorted `{DirFormat} (entries : list DirEntry)
    : list DirEntry :=
  rev (fold_left (fun before x => sink x before) entries []).

(** Ascending order of names: [a] may stand before [b]. *)
Definition nameLe `{DirFormat} (a b : DirEntry) : Prop := Less b a = false.

(** [sort.Sort(sortByName(entries))], by what package sort says of it and
    no more. The algorithm is the library's and has changed between
    releases (quick sort, then pattern-defeating quick sort, both with an
    insertion sort on short ranges); "Sort sorts data in ascending order as
    determined by the Less method. [...] The sort is not guaranteed to be
    stable": the slice is left a reordering of itself in which no element
    is [Less] than an earlier one, and the order among elements of equal
    names is the algorithm's. In every release a slice of at most 6
    elements is handed to [insertionSort] alone (longer ones, up to 12, get
    a pass of swaps at distance 6 first in some releases). *)
Class Sorting `{DirFormat} : Type := {
  sort_Sort : list DirEntry -> list DirEntry;
  sort_Sort_Permutation : forall l, Permutation (sort_Sort l) l;
  sort_Sort_sorted : forall l, StronglySorted nameLe (sort_Sort l);
  sort_Sort_short :
    forall l, (List.length l <= 6)%nat -> sort_Sort l = insertionSorted l;
}.

(** The struct, without its field [Storage]: the storage and its world are
    passed next to it. *)
Record DirBlobWriter `{DirFormat} : Type := {
  entries : list DirEntry;
}.

(** [AddEntry]; always returns a nil error. *)
Definition AddEntry `{DirFormat} (d : DirBlobWriter) (entry : DirEntry)
    : DirBlobWriter :=
  {| entries := entries d ++ [entry] |}.

(** The content of [buffer] in [finalizeSimple], for entries already
    sorted. *)
Definition dirBuffer `{DirFormat} (sorted : list DirEntry) : list byte :=
  [blobTypeSimpleStaticDir]
    ++ serializeInt (len sorted)
    ++ flat_map serialize sorted.

(** [finalizeSimple]; the entries of the writer are left sorted. *)
Definition finalizeSimple `{CipherSuite} `{DirFormat} `{!Sorting}
    (storage : BlobStorage) (d : DirBlobWriter) (st : World storage)
    : outcome result * DirBlobWriter * World storage :=
  (* Sort entries by name *)
  let d := {| entries := sort_Sort (entries d) |} in
  (* Serialize the data *)
  let buffer := dirBuffer (entries d) in
  (* Create blob out of the data *)
  let (r, st) :=
    createHashValidatedBlobFromReaderGenerator storage
      (fun _ => bytes_NewReader buffer) st in
  (r, d, st).

Definition finalizeSplit `{DirFormat} (storage : BlobStorage)
    (d : DirBlobWriter) (st : World storage)
    : outcome result * DirBlobWriter * World storage :=
  (Panics "Unimplemented: split dir blob", d, st).

(** [DirBlobWriter.Finalize] *)
Definition DirBlobWriter_Finalize `{CipherSuite} `{DirFormat} `{!Sorting}
    (storage : BlobStorage) (d : DirBlobWriter) (st : World storage)
    : outcome result * DirBlobWriter * World storage :=
  if len (entries d) <=? maxSimpleDirEntries then finalizeSimple storage d st
  else finalizeSplit storage d st.

(** ** The chunked file writer

    Present through fileblobwriter_test.go only: the writer itself is
    missing. What the tests expect fixes the layout of what it stores, see
    [simple_file_keys] and [split_file_index_key] below. *)

(** [BlockSize]: 16 MiB. *)
Definition BlockSize : Z := 16 * 1024 * 1024.

(** A capability: blob id and key. *)
Definition Capability : Type := string * string.

(** Successive blocks of up to [size] bytes, in stream order. *)
Fixpoint splitBlocks (fuel size : nat) (content : list byte)
    : list (list byte) :=
  match fuel, content with
  | O, _ | _, [] => []
  | S fuel, _ =>
      firstn size content :: splitBlocks fuel size (skipn size content)
  end.

(** The type byte in front of the content of a stored file or block: the
    keys expected by TestSimpleFiles and TestSimpleFileBorder are those of
    the plaintext "01, then the content". *)
Definition blobTypeSimpleStaticFile : byte := Byte.x01.

(** The type byte in front of an index record: the key expected by
    TestSplitFiles1 is that of a plaintext that starts with 02. *)
Definition blobTypeSplitStaticFile : byte := Byte.x02.

(** [binary.PutUvarint]: seven bits to a byte, the lowest first, the high
    bit set on every byte but the last,
    [for x >= 0x80 { buf[i] = byte(x) | 0x80; x >>= 7; i++ }; buf[i] = byte(x)].
    A [uint64] is below 0x80 after nine rounds. *)
Fixpoint putUvarint (rounds : nat) (x : Z) : list byte :=
  match rounds with
  | O => [byte_of_Z x]
  | S rounds =>
      if 128 <=? x then
        byte_of_Z (Z.lor (x mod 256) 128) :: putUvarint rounds (Z.shiftr x 7)
      else [byte_of_Z x]
  end.

(** An integer in an index record: its value as a [uint64], as a uvarint. *)
Definition serializeUvarint (v : Z) : list byte :=
  putUvarint 9 (v mod 2 ^ 64).

(** A string in an index record: its length, then its bytes. *)
Definition serializeString (s : string) : list byte :=
  serializeUvarint (len (bytes_of_string s)) ++ bytes_of_string s.

(** Modelled from the spec: "an ordered list of the child capabilities as
    the plaintext of an index record". The layout is the one whose key
    TestSplitFiles1 expects: the type byte, the size of the whole content,
    the count of the blocks, and for every block its blob id and its key. *)
Definition indexRecord (size : Z) (caps : list Capability) : list byte :=
  [blobTypeSplitStaticFile]
    ++ serializeUvarint size
    ++ serializeUvarint (len caps)
    ++ flat_map (fun c : Capability =>
                   serializeString (fst c) ++ serializeString (snd c)) caps.

(** Modelled from the spec: a unit of content goes "directly through the
    Pipeline as a single blob", behind its type byte. *)
Definition storeUnit `{CipherSuite} (storage : BlobStorage)
    (content : list byte) (st : World storage)
    : outcome result * World storage :=
  createHashValidatedBlobFromReaderGenerator storage
    (fun _ => bytes_NewReader (blobTypeSimpleStaticFile :: content)) st.

(** Modelled from the spec: "store each block independently through the
    Pipeline, yielding one child capability per block"; "any Pipeline
    failure for a block or the index aborts the whole operation and
    propagates the error". [inl] holds the capabilities of all blocks,
    [inr] the outcome that aborted. *)
Fixpoint storeBlocks `{CipherSuite} (storage : BlobStorage)
    (blocks : list (list byte)) (st : World storage)
    : (list Capability + outcome result) * World storage :=
  match blocks with
  | [] => (inl [], st)
  | b :: rest =>
      match storeUnit storage b st with
      | (Returns (Result bid key None), st) =>
          match storeBlocks storage rest st with
          | (inl caps, st) => (inl ((bid, key) :: caps), st)
          | (inr o, st) => (inr o, st)
          end
      | (o, st) => (inr o, st)
      end
  end.

(** Modelled from the spec, section 4.4 (the writer itself is missing):
    content of at most [blockSize] bytes is stored "directly through the
    Pipeline as a single blob"; longer content is partitioned "into
    successive blocks of up to BlockSize bytes in stream order", each block
    is stored, and the index record of the child capabilities is stored
    "through the Pipeline; the resulting capability is returned as the
    file's capability". An index record longer than a block is itself
    content to which "the same splitting rule recurses"; [depth] bounds the
    levels of indexes, [None] when it is exhausted. *)
Fixpoint storeStream `{CipherSuite} (storage : BlobStorage) (blockSize : Z)
    (depth : nat) (content : list byte) (st : World storage)
    : option (outcome result * World storage) :=
  if len content <=? blockSize then Some (storeUnit storage content st)
  else
    match depth with
    | O => None
    | S depth =>
        let blocks :=
          splitBlocks (List.length content) (Z.to_nat blockSize) content in
        match storeBlocks storage blocks st with
        | (inl caps, st) =>
            let record := indexRecord (len content) caps in
            if len record <=? blockSize then
              Some (createHashValidatedBlobFromReaderGenerator storage
                      (fun _ => bytes_NewReader record) st)
            else storeStream storage blockSize depth record st
        | (inr o, st) => Some (o, st)
        end
    end.

(** Modelled from the spec: the writer accumulates what is written. *)
Record FileBlobWriter : Type := {
  written : list byte;
}.

#[export] Instance FileBlobWriter_Writer : Writer FileBlobWriter :=
  fun w p => ({| written := written w ++ p |}, (len p, None)).

(** Modelled from the spec: [FileBlobWriter.Finalize], with blocks of
    [BlockSize] bytes. The length of the content bounds the levels of
    indexes of any file whose index records are shorter than the content
    they list. *)
Definition FileBlobWriter_Finalize `{CipherSuite}
    (storage : BlobStorage) (w : FileBlobWriter) (st : World storage)
    : option (outcome result * World storage) :=
  storeStream storage BlockSize (List.length (written w)) (written w) st.

(** ** The in-memory storage

    [NewMemoryBlobStorage] is used by the tests and declared elsewhere. *)

#[export] Instance byte_eq_dec : EqDecision byte := Byte.byte_eq_dec.

Record MemoryWorld : Type := {
  blobs : gmap string (list byte);
  staged : gmap nat (string * list byte);
  nextWriter : nat;
}.

(** Modelled from the spec, section 4.2: "Write accumulates bytes.
    Finalize commits atomically: if content identical to an existing blob
    under id already exists, this is a no-op success (dedup); if different
    content is already stored under the same id, it fails with
    BIDCollision. Cancel discards all staged bytes with no persisted
    effect"; "NewBlobReader(id) fails with BIDNotFound if absent". *)
Definition MemoryBlobStorage : BlobStorage := {|
  World := MemoryWorld;
  BlobWriter := nat;
  NewBlobWriter := fun blobId m =>
    (inl (nextWriter m),
     {| blobs := blobs m;
        staged := <[nextWriter m := (blobId, [])]> (staged m);
        nextWriter := S (nextWriter m) |});
  NewBlobReader := fun blobId m =>
    match blobs m !! blobId with
    | Some content => (inl (bytes_NewReader content), m)
    | None => (inr ErrBIDNotFound, m)
    end;
  Write := fun w p m =>
    match staged m !! w with
    | Some (blobId, content) =>
        ((len p, None),
         {| blobs := blobs m;
            staged := <[w := (blobId, content ++ p)]> (staged m);
            nextWriter := nextWriter m |})
    | None => ((0, Some (ErrIO "write on a closed writer")), m)
    end;
  Finalize := fun w m =>
    match staged m !! w with
    | Some (blobId, content) =>
        match blobs m !! blobId with
        | Some existing =>
            if decide (existing = content)
            then (None, {| blobs := blobs m; staged := delete w (staged m);
                           nextWriter := nextWriter m |})
            else (Some ErrBIDCollision, m)
        | None =>
            (None, {| blobs := <[blobId := content]> (blobs m);
                      staged := delete w (staged m);
                      nextWriter := nextWriter m |})
        end
    | None => (Some (ErrIO "finalize on a closed writer"), m)
    end;
  Cancel := fun w m =>
    (None, {| blobs := blobs m; staged := delete w (staged m);
              nextWriter := nextWriter m |});
|}.

(** [NewMemoryBlobStorage()] *)
Definition NewMemoryBlobStorage : MemoryWorld :=
  {| blobs := ∅; staged := ∅; nextWriter := 0 |}.

(** ** Notions used in the theorems *)

(** The reader delivers exactly [P] and ends with [io.EOF]. *)
Definition yields (r : Reader) (P : list byte) : Prop :=
  delivered r = P /\ readError r = None.

(** A restartable producer of the plaintext [P]: every invocation returns
    a reader of the whole of [P]. *)
Definition restartable (readerGenerator : nat -> Reader) (P : list byte) : Prop :=
  forall n, yields (readerGenerator n) P.

(** What an encryptor forwards to its sink when [P] is written to it. *)
Definition encryptAll `{CipherSuite} (e : Encryptor) (P : list byte) : list byte :=
  enc_sink (fst (write e P)).

(** The calls by which [io.Copy(blobWriter, &encryptedBuffer)] hands the
    ciphertext to the staged writer. *)
Definition ciphertextWrites {H} (w : H) (ct : list byte) : list (Call H) :=
  match ct with
  | [] => []
  | _ => [CallWrite w ct]
  end.

(** A call that hands bytes to the staged writer [w], or a refused
    [Finalize] of it: what may precede the [Cancel] of a failed run. *)
Definition stagingCall {H} (w : H) (c : Call H) : Prop :=
  match c with
  | CallWrite w' _ => w' = w
  | CallFinalize w' (Some _) => w' = w
  | _ => False
  end.

(** The plaintext of the directory blob of a writer. *)
Definition dirPlaintext `{DirFormat} `{!Sorting} (d : DirBlobWriter)
    : list byte :=
  dirBuffer (sort_Sort (entries d)).

(** The writer after [AddEntry] was called with each of [l] in turn. *)
Definition addAll `{DirFormat} (l : list DirEntry) : DirBlobWriter :=
  fold_left AddEntry l {| entries := [] |}.

(** [bytes.Buffer] as the destination of [io.Copy]. *)
Record Buffer : Type := { Bytes : list byte }.

#[export] Instance Buffer_Writer : Writer Buffer :=
  fun b p => ({| Bytes := Bytes b ++ p |}, (len p, None)).

(** The last part of [createHashValidatedBlobFromReaderGenerator], from
    [storage.NewBlobWriter(bid)] on, given the blob id, the key and the
    content of [encryptedBuffer]. *)
Definition storeBlob (storage : BlobStorage) (bid key : string)
    (encryptedBuffer : list byte) (st : World storage)
    : outcome result * World storage :=
  match NewBlobWriter storage bid st with
  | (inr e, st) => (Returns (Result bid key (Some e)), st)
  | (inl blobWriter, st) =>
      let failed e st :=
        (Returns (Result bid key (Some e)), snd (Cancel storage blobWriter st)) in
      match Write storage blobWriter [validationMethodHash] st with
      | ((_, Some e), st) => failed e st
      | ((_, None), st) =>
          match Buffer_WriteTo storage blobWriter encryptedBuffer st with
          | (Panics msg, st) => (Panics msg, st)
          | (Returns (Some e), st) => failed e st
          | (Returns None, st) =>
              match Finalize storage blobWriter st with
              | (Some e, st) => failed e st
              | (None, st) => (Returns (Result bid key None), st)
              end
          end
      end
  end.

(** The key, the ciphertext, the blob id and the capability of the
    plaintext [P], as a run of the pipeline that meets no error computes
    them. *)
Definition keyOf `{CipherSuite} (P : list byte) : list byte :=
  deriveKey (sha512.Sum512 P).

Definition ciphertextOf `{CipherSuite} (P : list byte) : list byte :=
  xorKeyStream (keyOf P) [] 0 P.

Definition blobIdOf `{CipherSuite} (P : list byte) : string :=
  hex.EncodeToString (sha512.Sum512 (ciphertextOf P)).

Definition capabilityOf `{CipherSuite} (P : list byte) : Capability :=
  (blobIdOf P, encodeKey (keyOf P)).

(** The calls that store the blob of the plaintext [P] through the staged
    writer [w]: the writer is opened under the blob id, handed the tag byte
    and the ciphertext, and finalized. *)
Definition session {H} `{CipherSuite} (w : H) (P : list byte) : list (Call H) :=
  CallNewBlobWriter (blobIdOf P) (Some w) :: CallWrite w [validationMethodHash]
    :: ciphertextWrites w (ciphertextOf P) ++ [CallFinalize w None].

(** A storage that refuses nothing: it opens every writer asked for, takes
    every write whole and finalizes every writer. *)
Definition accepting (storage : BlobStorage) : Prop :=
  (forall blobId st, exists w, fst (NewBlobWriter storage blobId st) = inl w)
  /\ (forall w p st, fst (Write storage w p st) = (len p, None))
  /\ (forall w st, fst (Finalize storage w st) = None).

(** All 256 bytes. *)
Definition all_bytes : list byte :=
  map (fun n => byte_of_N (N.of_nat n)) (seq 0 256).

(** ** Stand-ins for the missing declarations

    One instance of every class above, on which the definitions can be
    run. *)

Module Sample.

(** The key stream repeats the key, mixed with the iv: a stand-in for the
    block cipher of the factory. *)
Definition repeatKey (k iv : list byte) (i : nat) : byte :=
  byte_xor (nth (i mod 32) k Byte.x00)
           (nth (i mod Nat.max 1 (List.length iv)) iv Byte.x00).

(** Key sources of 32 bytes at least, and the key their first 32 bytes, as
    in the keys expected by fileblobwriter_test.go. *)
#[export, refine] Instance suite : CipherSuite := {|
  MinKeySourceBytes := 32;
  KeyBytes := 32;
  deriveKey := firstn 32;
  keyStream := repeatKey;
|}.
Proof.
  - lia.
  - unfold len. intros keySource Hlen. apply firstn_length_le. lia.
Defined.

(** A directory entry: name and child capability. *)
Record Entry : Type := {
  entryName : string;
  entryBid : string;
  entryKey : string;
}.

(** An integer as the count of its bytes, then the bytes, big-endian. *)
Definition intBytes (v : Z) : list byte :=
  sha512.be_bytes (Z.to_nat (Z.log2 v / 8 + 1)) v.

Definition lengthPrefixedInt (v : Z) : list byte :=
  byte_of_Z (len (intBytes v)) :: intBytes v.

Definition lengthPrefixedString (s : string) : list byte :=
  lengthPrefixedInt (len (bytes_of_string s)) ++ bytes_of_string s.

#[export] Instance dirFormat : DirFormat := {|
  DirEntry := Entry;
  Name := entryName;
  serialize := fun e =>
    lengthPrefixedString (entryName e)
      ++ lengthPrefixedString (entryBid e)
      ++ lengthPrefixedString (entryKey e);
  serializeInt := lengthPrefixedInt;
  maxSimpleDirEntries := 1024;
  blobTypeSimpleStaticDir := Byte.x11;
|}.

(** A file of twelve bytes, read twice through [bytes.NewReader]. *)
Definition hello : list byte := bytes_of_string "Hello World!".

Definition helloGenerator (n : nat) : Reader := bytes_NewReader hello.

Definition resultOf (o : outcome result) : result :=
  match o with
  | Returns r => r
  | Panics _ => Result "" "" None
  end.

(** Its blob, stored in an empty memory storage. *)
Definition helloResult : result :=
  Eval vm_compute in
    resultOf (fst (createHashValidatedBlobFromReaderGenerator MemoryBlobStorage
                     helloGenerator NewMemoryBlobStorage)).

(** A memory storage that holds other content under the id of that blob. *)
Definition collidingStorage : MemoryWorld :=
  {| blobs := {[ bid helloResult := [Byte.x00] ]}; staged := ∅; nextWriter := 0 |}.

Definition collisionResult : result :=
  Result (bid helloResult) (key helloResult) (Some ErrBIDCollision).

(** A reader that delivers one byte and then fails. *)
Definition brokenReader : Reader :=
  Chunk [Byte.x61] (Failing (ErrIO "unexpected EOF")).

(** Two entries under one name, and a third. *)
Definition entryA1 : Entry :=
  {| entryName := "a"; entryBid := "01"; entryKey := "k1" |}.
Definition entryA2 : Entry :=
  {| entryName := "a"; entryBid := "02"; entryKey := "k2" |}.
Definition entryB : Entry :=
  {| entryName := "b"; entryBid := "03"; entryKey := "k3" |}.

(** [n] entries of distinct names: the empty name, "a", "aa", ... *)
Definition manyEntries (n : nat) : list Entry :=
  map (fun i => {| entryName := string_of_list_ascii (repeat "a"%char i);
                   entryBid := "00"; entryKey := "k" |})
      (seq 0 n).

(** A file of exactly [BlockSize] bytes, all 'a', as in TestSimpleFileBorder. *)
Definition borderFile : list byte := repeat Byte.x61 (Z.to_nat BlockSize).

(** A storage without collision check: a writer is the id it was opened
    under, what it is handed is appended to the blob of that id. *)
Definition Overwriting : BlobStorage := {|
  World := gmap string (list byte);
  BlobWriter := string;
  NewBlobWriter := fun blobId m => (inl blobId, <[blobId := []]> m);
  NewBlobReader := fun blobId m =>
    match m !! blobId with
    | Some content => (inl (bytes_NewReader content), m)
    | None => (inr ErrBIDNotFound, m)
    end;
  Write := fun w p m =>
    ((len p, None), <[w := default [] (m !! w) ++ p]> m);
  Finalize := fun w m => (None, m);
  Cancel := fun w m => (None, delete w m);
|}.

End Sample.

(** ** The rest of the sources: sortByName, hexDump *)

(** An [int] in decimal digits, as the run time prints it. *)
Definition decimal (z : Z) : string :=
  DecimalString.NilZero.string_of_int (Z.to_int z).

(** [s[i]] for a slice [s] and an [int] index [i]: the element, or the
    run-time panic of an index out of range ([runtime.boundsError]: a
    negative index is reported without the length). *)
Definition index {A} (s : list A) (i : Z) : outcome A :=
  if i <? 0 then
    Panics ("runtime error: index out of range [" ++ decimal i ++ "]")
  else
    match s !! Z.to_nat i with
    | Some a => Returns a
    | None =>
        Panics ("runtime error: index out of range [" ++ decimal i
                  ++ "] with length " ++ decimal (len s))
    end.

(** [sortByName.Len] *)
Definition sortByName_Len `{DirFormat} (s : list DirEntry) : Z :=
  len s.

(** [sortByName.Less(i, j)]: [s[i].Name < s[j].Name], with [s[i]] indexed
    before [s[j]]. *)
Definition sortByName_Less `{DirFormat} (s : list DirEntry) (i j : Z)
    : outcome bool :=
  match index s i with
  | Panics msg => Panics msg
  | Returns a =>
      match index s j with
      | Panics msg => Panics msg
      | Returns b => Returns (String.ltb (Name a) (Name b))
      end
  end.

(** [sortByName.Swap(i, j)]: [s[i], s[j] = s[j], s[i]]. The right-hand
    side is evaluated first, [s[j]] before [s[i]]; then the two elements
    are assigned. *)
Definition sortByName_Swap `{DirFormat} (s : list DirEntry) (i j : Z)
    : outcome (list DirEntry) :=
  match index s j with
  | Panics msg => Panics msg
  | Returns b =>
      match index s i with
      | Panics msg => Panics msg
      | Returns a => Returns (<[Z.to_nat j := a]> (<[Z.to_nat i := b]> s))
      end
  end.

(** The inner loop of [sort.insertionSort(data, a, b)] on a [sortByName]:
    [for j := i; j > a && data.Less(j, j-1); j-- { data.Swap(j, j-1) }],
    with [j] given by its distance [n] from [a], so that [j > a] reads
    [n > 0]. *)
Fixpoint insertionSort_inner `{DirFormat} (a : Z) (n : nat)
    (data : list DirEntry) : outcome (list DirEntry) :=
  match n with
  | O => Returns data
  | S n' =>
      let j := a + Z.of_nat n in
      match sortByName_Less data j (j - 1) with
      | Panics msg => Panics msg
      | Returns false => Returns data
      | Returns true =>
          match sortByName_Swap data j (j - 1) with
          | Panics msg => Panics msg
          | Returns data' => insertionSort_inner a n' data'
          end
      end
  end.

(** The outer loop, [for i := a + 1; i < b; i++], with [rounds] rounds
    left and [i] at distance [k] from [a]. *)
Fixpoint insertionSort_outer `{DirFormat} (rounds : nat) (a : Z) (k : nat)
    (data : list DirEntry) : outcome (list DirEntry) :=
  match rounds with
  | O => Returns data
  | S rounds' =>
      match insertionSort_inner a k data with
      | Panics msg => Panics msg
      | Returns data' => insertionSort_outer rounds' a (S k) data'
      end
  end.

(** [sort.insertionSort(data, a, b)] *)
Definition insertionSort `{DirFormat} (data : list DirEntry) (a b : Z)
    : outcome (list DirEntry) :=
  insertionSort_outer (Z.to_nat (b - (a + 1))) a 1 data.

(** [hexDump] of fileblobwriter_test.go. *)
Definition hexDump (buff : list byte) : string :=
  if 10 <? len buff then (hex.EncodeToString (firstn 10 buff) ++ "...")%string
  else hex.EncodeToString buff.

(** A storage whose [Write] never reports more bytes than it was given, as
    [io.Writer] requires. *)
Definition honestWrites (storage : BlobStorage) : Prop :=
  forall (w : BlobWriter storage) (p : list byte) (st : World storage),
    fst (fst (Write storage w p st)) <= len p.

(** The bytes handed to staged writers, in the order of the calls. *)
Fixpoint writtenBytes {H} (log : list (Call H)) : list byte :=
  match log with
  | [] => []
  | CallWrite _ p :: rest => p ++ writtenBytes rest
  | _ :: rest => writtenBytes rest
  end.

(** A call on the staged writer [w]. *)
Definition writerCall {H} (w : H) (c : Call H) : Prop :=
  match c with
  | CallWrite w' _ | CallFinalize w' _ | CallCancel w' => w' = w
  | _ => False
  end.

(** A memory storage none of whose coming writers is in use. *)
Definition freshWriters (m : MemoryWorld) : Prop :=
  forall k, (nextWriter m <= k)%nat -> staged m !! k = None.

(** ** More stand-ins: storages that misreport, and runs on them *)

Module Faulty.
#[local] Existing Instance Sample.suite.
#[local] Existing Instance Sample.dirFormat.

(** The memory storage with writers that report [count n] bytes for a
    write of [n] bytes, all of which they take. *)
Definition Miscounting (count : Z -> Z) : BlobStorage := {|
  World := MemoryWorld;
  BlobWriter := nat;
  NewBlobWriter := NewBlobWriter MemoryBlobStorage;
  NewBlobReader := NewBlobReader MemoryBlobStorage;
  Write := fun w p m =>
    let '((n, e), m') := Write MemoryBlobStorage w p m in ((count n, e), m');
  Finalize := Finalize MemoryBlobStorage;
  Cancel := Cancel MemoryBlobStorage;
|}.

(** One byte too many, one byte too few. *)
Definition Overcounting : BlobStorage := Miscounting Z.succ.
Definition Undercounting : BlobStorage := Miscounting Z.pred.

(** The encryptor of the sample file and what it makes of the file. *)
Definition helloEncryptor : Encryptor :=
  {| enc_key := firstn 32 (sha512.Sum512 Sample.hello); enc_iv := [];
     enc_pos := 0; enc_sink := [] |}.

Definition helloCiphertext : list byte := encryptAll helloEncryptor Sample.hello.

(** The worlds of the undercounting storage along a run on the sample
    file: after the writer is opened, after the tag byte, after the
    ciphertext. *)
Definition opened : MemoryWorld :=
  snd (NewBlobWriter Undercounting (bid Sample.helloResult) NewMemoryBlobStorage).
Definition tagged : MemoryWorld :=
  snd (Write Undercounting 0%nat [validationMethodHash] opened).
Definition filled : MemoryWorld :=
  snd (Write Undercounting 0%nat helloCiphertext tagged).

(** The sample file in two chunks, from a reader that fails at its end. *)
Definition brokenHello (n : nat) : Reader :=
  Chunk (firstn 5 Sample.hello)
    (Chunk (skipn 5 Sample.hello) (Failing (ErrIO "unexpected EOF"))).

(** A directory of two entries, added in descending order of names, and
    the capability of its blob: that of the entries serialized in
    ascending order. *)
Definition twoEntries : list DirEntry := [Sample.entryB; Sample.entryA1].

Definition directoryResult : result :=
  Eval vm_compute in
    Sample.resultOf
      (fst (createHashValidatedBlobFromReaderGenerator MemoryBlobStorage
              (fun _ => bytes_NewReader (dirBuffer [Sample.entryA1; Sample.entryB]))
              NewMemoryBlobStorage)).

End Faulty.

(* ===================================================================== *)
(** * Part II: theorems                                                    *)
(* ===================================================================== *)

(** ** Bytes and hexadecimal strings *)

Lemma all_bytes_complete (b : byte) : In b all_bytes.
Proof.
  unfold all_bytes. apply in_map_iff. exists (Byte.to_nat b). split.
  - unfold byte_of_N. rewrite <- Byte.to_N_via_nat, Byte.of_to_N. reflexivity.
  - apply in_seq. pose proof (Byte.to_nat_bounded b). lia.
Qed.

Lemma forall_bytes (P : byte -> bool) :
  forallb P all_bytes = true -> forall b, P b = true.
Proof.
  intros Hall b. rewrite forallb_forall in Hall. apply Hall, all_bytes_complete.
Qed.

Lemma byte_xor_involutive (a b : byte) : byte_xor (byte_xor a b) b = a.
Proof.
  apply Byte.byte_dec_bl.
  apply (forall_bytes (fun b => Byte.eqb (byte_xor (byte_xor a b) b) a)).
  apply (forall_bytes (fun a => forallb (fun b =>
            Byte.eqb (byte_xor (byte_xor a b) b) a) all_bytes)).
  vm_compute. reflexivity.
Qed.

Lemma len_app {A} (l1 l2 : list A) : len (l1 ++ l2) = len l1 + len l2.
Proof. unfold len. rewrite length_app. lia. Qed.

Module hexFacts.

Lemma EncodeToString_length (src : list byte) :
  String.length (hex.EncodeToString src) = (2 * List.length src)%nat.
Proof. induction src as [|v rest IH]; simpl; [reflexivity | rewrite IH; lia]. Qed.

Lemma digit_lower (n : N) : hex.is_lower_hex (hex.digit n).
Proof.
  unfold hex.is_lower_hex, hex.digit.
  destruct (Nat.lt_ge_cases (N.to_nat n) (List.length hex.hextable)) as [Hlt|Hge].
  - apply nth_In. exact Hlt.
  - rewrite nth_overflow by exact Hge. vm_compute. tauto.
Qed.

Lemma EncodeToString_lower (src : list byte) :
  Forall hex.is_lower_hex (list_ascii_of_string (hex.EncodeToString src)).
Proof.
  induction src as [|v rest IH]; simpl.
  - constructor.
  - constructor; [apply digit_lower|]. constructor; [apply digit_lower|]. exact IH.
Qed.

Lemma decode_digits (v : byte) :
  exists hi lo,
    hex.fromHexChar (hex.digit (N.shiftr (Byte.to_N v) 4)) = Some hi /\
    hex.fromHexChar (hex.digit (N.land (Byte.to_N v) 15)) = Some lo /\
    byte_of_N (hi * 16 + lo) = v.
Proof.
  exists (N.shiftr (Byte.to_N v) 4), (N.land (Byte.to_N v) 15).
  destruct v; vm_compute; repeat split.
Qed.

Lemma DecodeString_EncodeToString (src : list byte) :
  hex.DecodeString (hex.EncodeToString src) = Some src.
Proof.
  induction src as [|v rest IH]; [reflexivity|].
  destruct (decode_digits v) as (hi & lo & Hhi & Hlo & Hv).
  cbn [hex.EncodeToString hex.DecodeString].
  rewrite Hhi, Hlo, IH, Hv. reflexivity.
Qed.

End hexFacts.

(** ** SHA-512 *)

Module sha512Facts.

Lemma be_bytes_length (n : nat) (x : Z) : List.length (sha512.be_bytes n x) = n.
Proof.
  revert x. induction n as [|n IH]; intros x; simpl; [reflexivity|].
  rewrite length_app, IH. simpl. lia.
Qed.

(** [sha512.Size] *)
Lemma Sum512_length (msg : list byte) : len (sha512.Sum512 msg) = sha512.Size.
Proof.
  unfold sha512.Sum512, sha512.list_of, len. cbn [flat_map].
  rewrite !length_app, !be_bytes_length. reflexivity.
Qed.

(** The digests that fileblobwriter_test.go expects: the blob id of the
    empty file is the digest of its ciphertext, the single byte eb. *)
Example Sum512_test_vector :
  hex.EncodeToString (sha512.Sum512 [Byte.xeb]) =
  "b4f5a7bb878c0cec9cb4bd6ae8bb175a7ea59c1a048c5ab7c119990d0041cb9cfb67c2aa9e6fada8112719777b4b80ffada80205f8ebe6981c0ade97ff3df8e5"%string.
Proof. vm_compute. reflexivity. Qed.

End sha512Facts.

(** ** Readers and [io.Copy] *)

Lemma delivered_bytes_NewReader (b : list byte) : delivered (bytes_NewReader b) = b.
Proof. destruct b; simpl; [reflexivity | rewrite app_nil_r; reflexivity]. Qed.

Lemma readError_bytes_NewReader (b : list byte) : readError (bytes_NewReader b) = None.
Proof. destruct b; reflexivity. Qed.

Lemma yields_bytes_NewReader (b : list byte) : yields (bytes_NewReader b) b.
Proof. split; [apply delivered_bytes_NewReader | apply readError_bytes_NewReader]. Qed.

(** A hasher receives everything the reader delivers; what [io.Copy]
    returns is the reader's error. *)
Lemma exact_count (p : list byte) :
  (len p <? 0) || (len p <? len p) = false.
Proof.
  rewrite Z.ltb_irrefl, orb_false_r. apply Z.ltb_ge. unfold len. lia.
Qed.

Lemma io_Copy_hasher (d : sha512.digest) (r : Reader) :
  io_Copy d r = (d ++ delivered r, readError r).
Proof.
  revert d. induction r as [|p next IH|e]; intros d; simpl.
  - rewrite app_nil_r. reflexivity.
  - destruct p as [|b p'].
    + apply IH.
    + unfold write, digest_Writer. rewrite exact_count, Z.eqb_refl, IH.
      unfold sha512.Write. rewrite <- app_assoc. reflexivity.
  - rewrite app_nil_r. reflexivity.
Qed.

Lemma io_Copy_Buffer (b : Buffer) (r : Reader) :
  io_Copy b r = ({| Bytes := Bytes b ++ delivered r |}, readError r).
Proof.
  revert b. induction r as [|p next IH|e]; intros [bs]; simpl.
  - rewrite app_nil_r. reflexivity.
  - destruct p as [|c p'].
    + apply IH.
    + unfold write, Buffer_Writer. rewrite exact_count, Z.eqb_refl, IH. simpl.
      rewrite <- app_assoc. reflexivity.
  - rewrite app_nil_r. reflexivity.
Qed.

Section Cipher.
Context `{suite : CipherSuite}.

Lemma xorKeyStream_app (k iv : list byte) (pos : nat) (p q : list byte) :
  xorKeyStream k iv pos (p ++ q) =
  xorKeyStream k iv pos p ++ xorKeyStream k iv (pos + List.length p) q.
Proof.
  revert pos. induction p as [|b p IH]; intros pos; simpl.
  - rewrite Nat.add_0_r. reflexivity.
  - rewrite IH. do 3 f_equal. lia.
Qed.

Lemma xorKeyStream_length (k iv : list byte) (pos : nat) (p : list byte) :
  List.length (xorKeyStream k iv pos p) = List.length p.
Proof. revert pos. induction p as [|b p IH]; intros pos; simpl; [|rewrite IH]; reflexivity. Qed.

(** Decrypting is encrypting again: the key stream cancels. *)
Lemma xorKeyStream_involutive (k iv : list byte) (pos : nat) (p : list byte) :
  xorKeyStream k iv pos (xorKeyStream k iv pos p) = p.
Proof.
  revert pos. induction p as [|b p IH]; intros pos; simpl; [reflexivity|].
  rewrite byte_xor_involutive, IH. reflexivity.
Qed.

(** The encryptor forwards to its sink the encryption of everything the
    reader delivers, whatever the chunks. *)
Lemma io_Copy_encryptor (e : Encryptor) (r : Reader) :
  io_Copy e r =
  ({| enc_key := enc_key e; enc_iv := enc_iv e;
      enc_pos := enc_pos e + List.length (delivered r);
      enc_sink := enc_sink e
                    ++ xorKeyStream (enc_key e) (enc_iv e) (enc_pos e) (delivered r) |},
   readError r).
Proof.
  revert e. induction r as [|p next IH|err]; intros [k iv pos sink]; simpl.
  - rewrite Nat.add_0_r, app_nil_r. reflexivity.
  - destruct p as [|b p'].
    + rewrite IH. reflexivity.
    + unfold write, Encryptor_Writer. rewrite exact_count, Z.eqb_refl, IH.
      cbn [enc_key enc_iv enc_pos enc_sink].
      rewrite (xorKeyStream_app k iv pos (b :: p') (delivered next)).
      rewrite <- app_assoc. do 2 f_equal. rewrite length_app. simpl. lia.
  - rewrite Nat.add_0_r, app_nil_r. reflexivity.
Qed.

(** The decrypting reader delivers the decryption of what its source
    delivers and fails as its source does. *)
Lemma delivered_decrypting (k iv : list byte) (pos : nat) (source : Reader) :
  delivered (decrypting k iv pos source) = xorKeyStream k iv pos (delivered source).
Proof.
  revert pos. induction source as [|p next IH|err]; intros pos; simpl; try reflexivity.
  rewrite IH, xorKeyStream_app. reflexivity.
Qed.

Lemma readError_decrypting (k iv : list byte) (pos : nat) (source : Reader) :
  readError (decrypting k iv pos source) = readError source.
Proof.
  revert pos. induction source as [|p next IH|err]; intros pos; simpl; try reflexivity.
  apply IH.
Qed.

Lemma parseKey_encodeKey (k : list byte) :
  List.length k = KeyBytes -> parseKey (encodeKey k) = Some k.
Proof.
  intros Hlen. unfold parseKey, encodeKey.
  rewrite hexFacts.DecodeString_EncodeToString.
  rewrite (Byte.byte_dec_lb (@eq_refl _ keyTag)), Hlen, Nat.eqb_refl. reflexivity.
Qed.

Lemma CreateEncryptor_cases (keySource iv sink : list byte) :
  (len keySource < MinKeySourceBytes /\
   CreateEncryptor keySource iv sink = inr ErrInsufficientKeySource)
  \/
  (MinKeySourceBytes <= len keySource /\
   CreateEncryptor keySource iv sink =
   inl ({| enc_key := deriveKey keySource; enc_iv := iv; enc_pos := 0;
           enc_sink := sink |}, encodeKey (deriveKey keySource))).
Proof.
  unfold CreateEncryptor.
  destruct (Z.ltb_spec (len keySource) MinKeySourceBytes); [left | right]; auto.
Qed.

(** The function up to the blob id, then [storeBlob]: the errors of the two
    reading passes are dropped. *)
Lemma createEncryptor_of_digest (P sink : list byte) :
  (64 < MinKeySourceBytes
   /\ createEncryptor (sha512.Sum512 P) [] sink = inr ErrInsufficientKeySource)
  \/ (MinKeySourceBytes <= 64
      /\ createEncryptor (sha512.Sum512 P) [] sink
         = inl ({| enc_key := deriveKey (sha512.Sum512 P); enc_iv := [];
                   enc_pos := 0; enc_sink := sink |},
                encodeKey (deriveKey (sha512.Sum512 P)))).
Proof.
  pose proof (sha512Facts.Sum512_length P) as Hlen. unfold sha512.Size in Hlen.
  unfold createEncryptor.
  destruct (CreateEncryptor_cases (sha512.Sum512 P) [] sink) as [[Hshort ->]|[Hlong ->]];
    [left | right]; (split; [lia | reflexivity]).
Qed.

Lemma pipeline_unfold (storage : BlobStorage) (readerGenerator : nat -> Reader)
    (st : World storage) :
  createHashValidatedBlobFromReaderGenerator storage readerGenerator st =
  match createEncryptor (sha512.Sum512 (delivered (readerGenerator 0%nat))) [] [] with
  | inr e => (Returns (Result "" "" (Some e)), st)
  | inl (encryptedWriter, key) =>
      let ct := xorKeyStream (enc_key encryptedWriter) (enc_iv encryptedWriter)
                  (enc_pos encryptedWriter) (delivered (readerGenerator 1%nat)) in
      storeBlob storage
        (hex.EncodeToString (sha512.Sum512 (enc_sink encryptedWriter ++ ct)))
        key (enc_sink encryptedWriter ++ ct) st
  end.
Proof.
  unfold createHashValidatedBlobFromReaderGenerator, storeBlob, sha512.Sum, sha512.New,
    sha512.Reset.
  rewrite io_Copy_hasher. cbn [fst app].
  destruct (createEncryptor _ [] []) as [[encryptedWriter key]|e]; [|reflexivity].
  rewrite io_Copy_encryptor, io_Copy_hasher, delivered_bytes_NewReader.
  cbn [fst app enc_sink]. reflexivity.
Qed.

End Cipher.

(** ** The hash-validated blob pipeline *)

(** Case analysis on every storage call of a run. *)
Ltac storage_cases storage :=
  repeat (cbn -[len Z.ltb Z.eqb];
          match goal with
          | |- context [NewBlobWriter storage ?b ?s] =>
              destruct (NewBlobWriter storage b s) as [[?|?] ?]
          | |- context [Write storage ?w ?p ?s] =>
              destruct (Write storage w p s) as [[? [?|]] ?]
          | |- context [Finalize storage ?w ?s] =>
              destruct (Finalize storage w s) as [[?|] ?]
          | |- context [Cancel storage ?w ?s] =>
              destruct (Cancel storage w s) as [? ?]
          | |- context [if ?c then _ else _] => destruct c
          end).

Section Pipeline.
Context `{suite : CipherSuite} (storage : BlobStorage).

(** Whatever the storage does, the id and the key returned are the ones
    computed before the storage is called. *)
Lemma storeBlob_result (bid0 key0 : string) (ct : list byte)
    (st : World storage) (r : result) :
  fst (storeBlob storage bid0 key0 ct st) = Returns r ->
  bid r = bid0 /\ key r = key0.
Proof.
  unfold storeBlob, Buffer_WriteTo. destruct ct; storage_cases storage; intros Hr;
    try discriminate Hr; injection Hr as <-; split; reflexivity.
Qed.

(** A successful run opens one staged writer, hands it the tag byte and
    the ciphertext, and finalizes it. *)
Lemma storeBlob_recorded_success (bid0 key0 : string) (ct : list byte)
    (st : World storage) (r : result) :
  let run := storeBlob (Recording storage) bid0 key0 ct (st, []) in
  fst run = Returns r -> err r = None ->
  exists w,
    snd (snd run) =
    CallNewBlobWriter bid0 (Some w) :: CallWrite w [validationMethodHash]
      :: ciphertextWrites w ct ++ [CallFinalize w None].
Proof.
  unfold storeBlob, Buffer_WriteTo. destruct ct; storage_cases storage; intros Hr Herr;
    try discriminate Hr; injection Hr as <-; try discriminate Herr;
    eexists; reflexivity.
Qed.

(** The same after earlier calls. *)
Lemma storeBlob_recorded_success_from (bid0 key0 : string) (ct : list byte)
    (st : World storage) (log0 : list (Call (BlobWriter storage))) (r : result) :
  let run := storeBlob (Recording storage) bid0 key0 ct (st, log0) in
  fst run = Returns r -> err r = None ->
  exists w,
    snd (snd run) =
    log0 ++ CallNewBlobWriter bid0 (Some w) :: CallWrite w [validationMethodHash]
      :: ciphertextWrites w ct ++ [CallFinalize w None].
Proof.
  unfold storeBlob, Buffer_WriteTo. destruct ct; storage_cases storage; intros Hr Herr;
    try discriminate Hr; injection Hr as <-; try discriminate Herr;
    eexists; cbn [ciphertextWrites app]; rewrite <- ?app_assoc; reflexivity.
Qed.

(** A storage that refuses nothing is handed the blob and returns no
    error. *)
Lemma storeBlob_accepting (bid0 key0 : string) (ct : list byte)
    (st : World storage) :
  accepting storage ->
  exists st', storeBlob storage bid0 key0 ct st = (Returns (Result bid0 key0 None), st').
Proof.
  intros (Hnew & Hwrite & Hfin). unfold storeBlob, Buffer_WriteTo.
  destruct (Hnew bid0 st) as [w Hw].
  destruct (NewBlobWriter storage bid0 st) as [opened st1]. cbn [fst] in Hw. subst opened.
  pose proof (Hwrite w [validationMethodHash] st1) as Htag.
  destruct (Write storage w [validationMethodHash] st1) as [[n e] st2].
  cbn [fst] in Htag. injection Htag as -> ->.
  destruct ct as [|c ct].
  - pose proof (Hfin w st2) as Hdone.
    destruct (Finalize storage w st2) as [e st3]. cbn [fst] in Hdone. subst e.
    eexists. reflexivity.
  - pose proof (Hwrite w (c :: ct) st2) as Hct.
    destruct (Write storage w (c :: ct) st2) as [[m e] st3].
    cbn [fst] in Hct. injection Hct as -> ->.
    rewrite Z.ltb_irrefl, Z.eqb_refl.
    pose proof (Hfin w st3) as Hdone.
    destruct (Finalize storage w st3) as [e st4]. cbn [fst] in Hdone. subst e.
    eexists. reflexivity.
Qed.

(** A failed run either was refused the staged writer and made no other
    call, or cancels the writer it opened as its last call, after writes
    and at most a refused [Finalize]. *)
Lemma storeBlob_recorded_failure (bid0 key0 : string) (ct : list byte)
    (st : World storage) (r : result) (e : error) :
  let run := storeBlob (Recording storage) bid0 key0 ct (st, []) in
  fst run = Returns r -> err r = Some e ->
  snd (snd run) = [CallNewBlobWriter bid0 None]
  \/ exists w body,
       snd (snd run) = CallNewBlobWriter bid0 (Some w) :: body ++ [CallCancel w]
       /\ Forall (stagingCall w) body.
Proof.
  unfold storeBlob, Buffer_WriteTo. destruct ct; storage_cases storage; intros Hr Herr;
    try discriminate Hr; injection Hr as <-; try discriminate Herr;
    first
      [ left; reflexivity
      | right; eexists; exists []; split; [reflexivity | constructor]
      | right; eexists; eexists [_]; split;
        [reflexivity | repeat constructor]
      | right; eexists; eexists [_; _]; split;
        [reflexivity | repeat constructor]
      | right; eexists; eexists [_; _; _]; split;
        [reflexivity | repeat constructor] ].
Qed.

End Pipeline.

Section PipelineClaims.
Context `{suite : CipherSuite}.

Lemma encryptAll_eq (e : Encryptor) (P : list byte) :
  encryptAll e P = enc_sink e ++ xorKeyStream (enc_key e) (enc_iv e) (enc_pos e) P.
Proof. reflexivity. Qed.

(** Recording the calls changes neither what a run returns nor what it
    does to the storage. *)
Lemma storeBlob_Recording (storage : BlobStorage) (bid0 key0 : string)
    (ct : list byte) (st : World storage) (log : list (Call (BlobWriter storage))) :
  let run := storeBlob (Recording storage) bid0 key0 ct (st, log) in
  (fst run, fst (snd run)) = storeBlob storage bid0 key0 ct st.
Proof.
  unfold storeBlob, Buffer_WriteTo. destruct ct; storage_cases storage; reflexivity.
Qed.

Lemma pipeline_Recording (storage : BlobStorage) (readerGenerator : nat -> Reader)
    (st : World storage) (log : list (Call (BlobWriter storage))) :
  let run := createHashValidatedBlobFromReaderGenerator (Recording storage)
               readerGenerator (st, log) in
  (fst run, fst (snd run)) =
  createHashValidatedBlobFromReaderGenerator storage readerGenerator st.
Proof.
  cbv zeta. rewrite !pipeline_unfold.
  destruct (createEncryptor _ [] []) as [[encryptedWriter key0]|e]; [|reflexivity].
  apply storeBlob_Recording.
Qed.

(** The errors of the readers have no part in a run: it is the run on
    readers that deliver the same bytes and end with [io.EOF]. *)
Lemma pipeline_ignores_read_errors (storage : BlobStorage)
    (readerGenerator : nat -> Reader) (st : World storage) :
  createHashValidatedBlobFromReaderGenerator storage readerGenerator st =
  createHashValidatedBlobFromReaderGenerator storage
    (fun n => bytes_NewReader (delivered (readerGenerator n))) st.
Proof. rewrite !pipeline_unfold, !delivered_bytes_NewReader. reflexivity. Qed.

(** C1. For a restartable producer of the plaintext [P] and any storage, a
    run that returns without error has created the encryptor from the
    SHA-512 digest of [P] as key source and the empty iv, and returns its
    key; with [ct] what that encryptor forwards when the whole of [P] is
    written to it, the storage was asked for one staged writer under the
    returned id, the writer was handed the validation-method tag byte and
    then [ct] and was finalized, and the returned id is the hexadecimal
    encoding of the digest of [ct] alone. *)
Theorem pipeline_success_stores_tagged_ciphertext (storage : BlobStorage)
    (readerGenerator : nat -> Reader) (P : list byte) (st : World storage)
    (r : result) :
  let run := createHashValidatedBlobFromReaderGenerator (Recording storage)
               readerGenerator (st, []) in
  restartable readerGenerator P ->
  fst run = Returns r ->
  err r = None ->
  exists encryptor,
    CreateEncryptor (sha512.Sum512 P) [] [] = inl (encryptor, key r) /\
    let ct := encryptAll encryptor P in
    bid r = hex.EncodeToString (sha512.Sum512 ct) /\
    exists w,
      snd (snd run) =
      CallNewBlobWriter (bid r) (Some w) :: CallWrite w [validationMethodHash]
        :: ciphertextWrites w ct ++ [CallFinalize w None].
Proof.
  intros run Hgen Hr Herr. subst run. rewrite pipeline_unfold in *.
  destruct (Hgen 0%nat) as [HP0 _]. destruct (Hgen 1%nat) as [HP1 _].
  rewrite HP0, HP1 in *. unfold createEncryptor in *.
  destruct (CreateEncryptor (sha512.Sum512 P) [] []) as [[encryptor key0]|e] eqn:Henc.
  - cbv zeta in *. rewrite <- encryptAll_eq in *.
    destruct (storeBlob_result _ _ _ _ _ _ Hr) as [Hbid Hkey].
    exists encryptor. rewrite Hkey, Hbid. split; [reflexivity|]. split; [reflexivity|].
    exact (storeBlob_recorded_success storage _ _ _ st r Hr Herr).
  - cbn in Hr. injection Hr as <-. discriminate Herr.
Qed.

(** C4. Two runs on producers of the same plaintext [P] return the same
    blob id and the same key, whatever the storages and their states: the
    pair is a function of the bytes of [P]. *)
Theorem pipeline_deterministic (storage1 storage2 : BlobStorage)
    (readerGenerator1 readerGenerator2 : nat -> Reader) (P : list byte)
    (st1 : World storage1) (st2 : World storage2) (r1 r2 : result) :
  restartable readerGenerator1 P ->
  restartable readerGenerator2 P ->
  fst (createHashValidatedBlobFromReaderGenerator storage1 readerGenerator1 st1)
    = Returns r1 ->
  fst (createHashValidatedBlobFromReaderGenerator storage2 readerGenerator2 st2)
    = Returns r2 ->
  (bid r1, key r1) = (bid r2, key r2).
Proof.
  intros Hgen1 Hgen2 Hr1 Hr2. rewrite pipeline_unfold in Hr1, Hr2.
  destruct (Hgen1 0%nat) as [H10 _]. destruct (Hgen1 1%nat) as [H11 _].
  destruct (Hgen2 0%nat) as [H20 _]. destruct (Hgen2 1%nat) as [H21 _].
  rewrite H10, H11 in Hr1. rewrite H20, H21 in Hr2.
  destruct (createEncryptor (sha512.Sum512 P) [] []) as [[encryptor key0]|e].
  - destruct (storeBlob_result _ _ _ _ _ _ Hr1) as [-> ->].
    destruct (storeBlob_result _ _ _ _ _ _ Hr2) as [-> ->]. reflexivity.
  - cbn in Hr1, Hr2. injection Hr1 as <-. injection Hr2 as <-. reflexivity.
Qed.

(** C5. A run that returns an error made no call to the storage and left
    it as it was, or was refused the staged writer and made no further
    call, or opened a staged writer [w] and then its last call is
    [w.Cancel()], preceded only by writes to [w] and a refused
    [w.Finalize()]: no [Finalize] succeeded. *)
Theorem pipeline_failure_cancels (storage : BlobStorage)
    (readerGenerator : nat -> Reader) (st : World storage) (r : result)
    (e : error) :
  let run := createHashValidatedBlobFromReaderGenerator (Recording storage)
               readerGenerator (st, []) in
  fst run = Returns r ->
  err r = Some e ->
  snd run = (st, [])
  \/ (exists b, snd (snd run) = [CallNewBlobWriter b None])
  \/ (exists b w body,
        snd (snd run) = CallNewBlobWriter b (Some w) :: body ++ [CallCancel w]
        /\ Forall (stagingCall w) body).
Proof.
  intros run Hr Herr. subst run. rewrite pipeline_unfold in *.
  destruct (createEncryptor _ [] []) as [[encryptor key0]|e0].
  - right. cbv zeta in *.
    destruct (storeBlob_recorded_failure storage _ _ _ st r e Hr Herr)
      as [Hlog|(w & body & Hlog & Hbody)].
    + left. eexists. exact Hlog.
    + right. eexists. exists w, body. split; [exact Hlog | exact Hbody].
  - left. reflexivity.
Qed.

(** C10. The blob id of a run that returns without error is the
    hexadecimal encoding of the SHA-512 digest, of 64 bytes, of the
    ciphertext: 128 characters, each one of 0123456789abcdef. *)
Theorem pipeline_bid_is_128_lowercase_hex (storage : BlobStorage)
    (readerGenerator : nat -> Reader) (st : World storage) (r : result) :
  fst (createHashValidatedBlobFromReaderGenerator storage readerGenerator st)
    = Returns r ->
  err r = None ->
  String.length (bid r) = 128%nat
  /\ Forall hex.is_lower_hex (list_ascii_of_string (bid r))
  /\ exists encryptor,
       createEncryptor (sha512.Sum512 (delivered (readerGenerator 0%nat))) [] []
         = inl (encryptor, key r)
       /\ let ct := encryptAll encryptor (delivered (readerGenerator 1%nat)) in
          bid r = hex.EncodeToString (sha512.Sum512 ct)
          /\ len (sha512.Sum512 ct) = 64.
Proof.
  intros Hr Herr. rewrite pipeline_unfold in Hr.
  destruct (createEncryptor _ [] []) as [[encryptor key0]|e0] eqn:Henc.
  - cbv zeta in Hr. rewrite <- encryptAll_eq in Hr.
    destruct (storeBlob_result _ _ _ _ _ _ Hr) as [Hbid Hkey].
    rewrite Hbid. split; [|split].
    + rewrite hexFacts.EncodeToString_length.
      pose proof (sha512Facts.Sum512_length
                    (encryptAll encryptor (delivered (readerGenerator 1%nat)))) as Hlen.
      unfold len, sha512.Size in Hlen. lia.
    + apply hexFacts.EncodeToString_lower.
    + exists encryptor. rewrite Hkey. split; [reflexivity|]. split; [reflexivity|].
      apply sha512Facts.Sum512_length.
  - cbn in Hr. injection Hr as <-. discriminate Herr.
Qed.

End PipelineClaims.

(** *** Runs on the memory storage *)

Section PipelineRuns.
#[local] Existing Instance Sample.suite.

Lemma pipeline_success_stores_tagged_ciphertext_witness :
  let run := createHashValidatedBlobFromReaderGenerator
               (Recording MemoryBlobStorage) Sample.helloGenerator
               (NewMemoryBlobStorage, []) in
  restartable Sample.helloGenerator Sample.hello
  /\ fst run = Returns Sample.helloResult
  /\ err Sample.helloResult = None
  /\ exists encryptor,
       CreateEncryptor (sha512.Sum512 Sample.hello) [] []
         = inl (encryptor, key Sample.helloResult)
       /\ let ct := encryptAll encryptor Sample.hello in
          bid Sample.helloResult = hex.EncodeToString (sha512.Sum512 ct)
          /\ exists w,
               snd (snd run) =
               CallNewBlobWriter (bid Sample.helloResult) (Some w)
                 :: CallWrite w [validationMethodHash]
                 :: ciphertextWrites w ct ++ [CallFinalize w None].
Proof.
  assert (Hgen : restartable Sample.helloGenerator Sample.hello)
    by (intros n; split; reflexivity).
  assert (Hrun : fst (createHashValidatedBlobFromReaderGenerator
                        (Recording MemoryBlobStorage) Sample.helloGenerator
                        (NewMemoryBlobStorage, [])) = Returns Sample.helloResult)
    by (vm_compute; reflexivity).
  assert (Herr : err Sample.helloResult = None) by reflexivity.
  split; [exact Hgen|]. split; [exact Hrun|]. split; [exact Herr|].
  exact (pipeline_success_stores_tagged_ciphertext MemoryBlobStorage
           Sample.helloGenerator Sample.hello NewMemoryBlobStorage
           Sample.helloResult Hgen Hrun Herr).
Defined.

Lemma pipeline_deterministic_witness :
  restartable Sample.helloGenerator Sample.hello
  /\ restartable (fun _ => Chunk (firstn 5 Sample.hello)
                             (Chunk (skipn 5 Sample.hello) EOF)) Sample.hello
  /\ fst (createHashValidatedBlobFromReaderGenerator MemoryBlobStorage
            Sample.helloGenerator NewMemoryBlobStorage)
       = Returns Sample.helloResult
  /\ fst (createHashValidatedBlobFromReaderGenerator MemoryBlobStorage
            (fun _ => Chunk (firstn 5 Sample.hello)
                        (Chunk (skipn 5 Sample.hello) EOF))
            Sample.collidingStorage)
       = Returns Sample.collisionResult
  /\ (bid Sample.helloResult, key Sample.helloResult)
     = (bid Sample.collisionResult, key Sample.collisionResult).
Proof.
  assert (Hgen1 : restartable Sample.helloGenerator Sample.hello)
    by (intros n; split; reflexivity).
  assert (Hgen2 : restartable (fun _ => Chunk (firstn 5 Sample.hello)
                                 (Chunk (skipn 5 Sample.hello) EOF)) Sample.hello)
    by (intros n; split; reflexivity).
  assert (Hrun1 : fst (createHashValidatedBlobFromReaderGenerator MemoryBlobStorage
                         Sample.helloGenerator NewMemoryBlobStorage)
                  = Returns Sample.helloResult)
    by (vm_compute; reflexivity).
  assert (Hrun2 : fst (createHashValidatedBlobFromReaderGenerator MemoryBlobStorage
                         (fun _ => Chunk (firstn 5 Sample.hello)
                                     (Chunk (skipn 5 Sample.hello) EOF))
                         Sample.collidingStorage)
                  = Returns Sample.collisionResult)
    by (vm_compute; reflexivity).
  repeat (split; [assumption|]).
  exact (pipeline_deterministic MemoryBlobStorage MemoryBlobStorage _ _
           Sample.hello _ _ _ _ Hgen1 Hgen2 Hrun1 Hrun2).
Defined.

Lemma pipeline_failure_cancels_witness :
  let run := createHashValidatedBlobFromReaderGenerator
               (Recording MemoryBlobStorage) Sample.helloGenerator
               (Sample.collidingStorage, []) in
  fst run = Returns Sample.collisionResult
  /\ err Sample.collisionResult = Some ErrBIDCollision
  /\ (snd run = (Sample.collidingStorage, [])
      \/ (exists b, snd (snd run) = [CallNewBlobWriter b None])
      \/ (exists b w body,
            snd (snd run) = CallNewBlobWriter b (Some w) :: body ++ [CallCancel w]
            /\ Forall (stagingCall w) body)).
Proof.
  assert (Hrun : fst (createHashValidatedBlobFromReaderGenerator
                        (Recording MemoryBlobStorage) Sample.helloGenerator
                        (Sample.collidingStorage, []))
                 = Returns Sample.collisionResult)
    by (vm_compute; reflexivity).
  assert (Herr : err Sample.collisionResult = Some ErrBIDCollision) by reflexivity.
  split; [exact Hrun|]. split; [exact Herr|].
  exact (pipeline_failure_cancels MemoryBlobStorage Sample.helloGenerator
           Sample.collidingStorage Sample.collisionResult ErrBIDCollision Hrun Herr).
Defined.

Lemma pipeline_bid_is_128_lowercase_hex_witness :
  fst (createHashValidatedBlobFromReaderGenerator MemoryBlobStorage
         Sample.helloGenerator NewMemoryBlobStorage) = Returns Sample.helloResult
  /\ err Sample.helloResult = None
  /\ String.length (bid Sample.helloResult) = 128%nat
  /\ Forall hex.is_lower_hex (list_ascii_of_string (bid Sample.helloResult))
  /\ exists encryptor,
       createEncryptor (sha512.Sum512 (delivered (Sample.helloGenerator 0%nat))) [] []
         = inl (encryptor, key Sample.helloResult)
       /\ let ct := encryptAll encryptor (delivered (Sample.helloGenerator 1%nat)) in
          bid Sample.helloResult = hex.EncodeToString (sha512.Sum512 ct)
          /\ len (sha512.Sum512 ct) = 64.
Proof.
  assert (Hrun : fst (createHashValidatedBlobFromReaderGenerator MemoryBlobStorage
                        Sample.helloGenerator NewMemoryBlobStorage)
                 = Returns Sample.helloResult)
    by (vm_compute; reflexivity).
  assert (Herr : err Sample.helloResult = None) by reflexivity.
  split; [exact Hrun|]. split; [exact Herr|].
  exact (pipeline_bid_is_128_lowercase_hex MemoryBlobStorage Sample.helloGenerator
           NewMemoryBlobStorage Sample.helloResult Hrun Herr).
Defined.

(** C3, on a producer whose reader delivers one byte and then fails: the
    function returns no error in spite of the failed reads of both passes,
    and stores, under id and key of the one-byte plaintext, the blob of
    that byte. *)
Theorem pipeline_swallows_read_error :
  let run := createHashValidatedBlobFromReaderGenerator MemoryBlobStorage
               (fun _ => Sample.brokenReader) NewMemoryBlobStorage in
  readError Sample.brokenReader = Some (ErrIO "unexpected EOF")
  /\ (exists r, fst run = Returns r /\ err r = None)
  /\ run = createHashValidatedBlobFromReaderGenerator MemoryBlobStorage
             (fun _ => bytes_NewReader [Byte.x61]) NewMemoryBlobStorage.
Proof.
  split; [reflexivity|]. split.
  - eexists. split; [vm_compute; reflexivity | reflexivity].
  - apply (pipeline_ignores_read_errors MemoryBlobStorage (fun _ => Sample.brokenReader)).
Qed.

End PipelineRuns.

(** *** The pipeline on the memory storage *)

Section PipelineInMemory.
Context `{suite : CipherSuite}.

(** On a memory storage whose next writer is not in use, the last part of
    the function commits tag byte and ciphertext under a free id, succeeds
    without a change when the id holds that very content, and fails with
    [ErrBIDCollision], leaving blobs and staged writers as they were, when
    the id holds other content. *)
Lemma memory_storeBlob (bid0 key0 : string) (ct : list byte) (m : MemoryWorld) :
  staged m !! nextWriter m = None ->
  storeBlob MemoryBlobStorage bid0 key0 ct m =
  match blobs m !! bid0 with
  | None =>
      (Returns (Result bid0 key0 None),
       {| blobs := <[bid0 := validationMethodHash :: ct]> (blobs m);
          staged := staged m; nextWriter := S (nextWriter m) |})
  | Some existing =>
      (Returns (Result bid0 key0
                  (if decide (existing = validationMethodHash :: ct)
                   then None else Some ErrBIDCollision)),
       {| blobs := blobs m; staged := staged m; nextWriter := S (nextWriter m) |})
  end.
Proof.
  intros Hfresh. unfold storeBlob, Buffer_WriteTo.
  destruct ct as [|c ct]; cbn -[len Z.ltb Z.eqb];
    repeat (first [ rewrite lookup_insert_eq | rewrite Z.ltb_irrefl
                  | rewrite Z.eqb_refl | rewrite insert_insert_eq ];
            cbn -[len Z.ltb Z.eqb]);
    (destruct (blobs m !! bid0) as [existing|]; [destruct (decide _)|]);
    cbn; rewrite ?insert_insert_eq, delete_insert_eq, delete_id by exact Hfresh;
    reflexivity.
Qed.

(** A failed run leaves no blob behind, and no staged writer. *)
Lemma memory_failure_commits_nothing (readerGenerator : nat -> Reader)
    (m : MemoryWorld) (r : result) (e : error) :
  let run := createHashValidatedBlobFromReaderGenerator MemoryBlobStorage
               readerGenerator m in
  staged m !! nextWriter m = None ->
  fst run = Returns r -> err r = Some e ->
  blobs (snd run) = blobs m /\ staged (snd run) = staged m.
Proof.
  intros run Hfresh. subst run. rewrite pipeline_unfold.
  destruct (createEncryptor _ [] []) as [[encryptor key0]|e0]; [|split; reflexivity].
  cbv zeta. generalize (enc_sink encryptor ++ xorKeyStream (enc_key encryptor)
    (enc_iv encryptor) (enc_pos encryptor) (delivered (readerGenerator 1%nat))).
  intros ct. generalize (hex.EncodeToString (sha512.Sum512 ct)). intros bid0.
  rewrite memory_storeBlob by exact Hfresh.
  destruct (blobs m !! bid0) as [existing|]; cbn [fst snd blobs staged];
    intros Hr Herr.
  - split; reflexivity.
  - injection Hr as <-. discriminate Herr.
Qed.

(** After a run without error the blob can be read back under the
    returned id: the tag byte, then the ciphertext of what the second
    reader delivered. *)
Lemma memory_success_reads_back (readerGenerator : nat -> Reader)
    (m : MemoryWorld) (r : result) :
  let run := createHashValidatedBlobFromReaderGenerator MemoryBlobStorage
               readerGenerator m in
  staged m !! nextWriter m = None ->
  fst run = Returns r -> err r = None ->
  exists encryptor,
    createEncryptor (sha512.Sum512 (delivered (readerGenerator 0%nat))) [] []
      = inl (encryptor, key r)
    /\ blobs (snd run) !! bid r
       = Some (validationMethodHash
                 :: encryptAll encryptor (delivered (readerGenerator 1%nat))).
Proof.
  intros run Hfresh. subst run. rewrite pipeline_unfold.
  destruct (createEncryptor _ [] []) as [[encryptor key0]|e0];
    [|cbn; intros [= <-] [=]].
  cbv zeta. rewrite <- encryptAll_eq.
  remember (encryptAll encryptor (delivered (readerGenerator 1%nat))) as ct eqn:Hct.
  generalize (hex.EncodeToString (sha512.Sum512 ct)). intros bid0.
  rewrite memory_storeBlob by exact Hfresh.
  destruct (blobs m !! bid0) as [existing|] eqn:Hbound; cbn [fst snd];
    intros [= <-] Herr; exists encryptor; (split; [reflexivity|]);
    rewrite <- Hct; cbn [bid key err blobs] in *.
  - destruct (decide (existing = validationMethodHash :: ct)) as [->|];
      [exact Hbound | discriminate Herr].
  - apply lookup_insert_eq.
Qed.

End PipelineInMemory.

(** ** The directory blob writer *)

Module StringOrder.

Lemma ltb_lt (a b : string) :
  String.ltb a b = true <-> OrderedTypeEx.String_as_OT.lt a b.
Proof.
  rewrite <- OrderedTypeEx.String_as_OT.cmp_lt.
  unfold String.ltb, OrderedTypeEx.String_as_OT.cmp.
  destruct (String.compare a b); split; intros Hc; congruence.
Qed.

Lemma ltb_irrefl (a : string) : String.ltb a a = false.
Proof.
  destruct (String.ltb a a) eqn:Hlt; [|reflexivity].
  apply ltb_lt in Hlt.
  exfalso. exact (OrderedTypeEx.String_as_OT.lt_not_eq a a Hlt eq_refl).
Qed.

Lemma ltb_trans (a b c : string) :
  String.ltb a b = true -> String.ltb b c = true -> String.ltb a c = true.
Proof.
  rewrite !ltb_lt. apply OrderedTypeEx.String_as_OT.lt_trans.
Qed.

Lemma ltb_asym (a b : string) : String.ltb a b = true -> String.ltb b a = false.
Proof.
  intros Hab. destruct (String.ltb b a) eqn:Hba; [|reflexivity].
  pose proof (ltb_trans _ _ _ Hab Hba) as Haa.
  rewrite ltb_irrefl in Haa. discriminate.
Qed.

(** Two strings neither of which is below the other are equal. *)
Lemma ltb_total (a b : string) :
  String.ltb a b = false -> String.ltb b a = false -> a = b.
Proof.
  unfold String.ltb. rewrite (String.compare_antisym b a).
  destruct (String.compare a b) eqn:Hc; cbn; intros Hab Hba; try discriminate.
  apply String.compare_eq_iff. exact Hc.
Qed.

Lemma ltb_negtrans (a b c : string) :
  String.ltb a b = false -> String.ltb b c = false -> String.ltb a c = false.
Proof.
  intros Hab Hbc. destruct (String.ltb a c) eqn:Hac; [|reflexivity].
  destruct (String.ltb b a) eqn:Hba.
  - rewrite (ltb_trans _ _ _ Hba Hac) in Hbc. discriminate.
  - rewrite <- (ltb_total _ _ Hab Hba) in Hbc. congruence.
Qed.

End StringOrder.

Section Directory.
Context `{format : DirFormat}.

Lemma entries_fold_AddEntry (l : list DirEntry) (d : DirBlobWriter) :
  entries (fold_left AddEntry l d) = entries d ++ l.
Proof.
  revert d. induction l as [|x l IH]; intros d; simpl.
  - rewrite app_nil_r. reflexivity.
  - rewrite IH. simpl. rewrite <- app_assoc. reflexivity.
Qed.

(** The writer holds the entries in the order of the calls. *)
Lemma entries_addAll (l : list DirEntry) : entries (addAll l) = l.
Proof. unfold addAll. rewrite entries_fold_AddEntry. reflexivity. Qed.

Lemma sink_Permutation (x : DirEntry) (before : list DirEntry) :
  Permutation (sink x before) (x :: before).
Proof.
  induction before as [|y ys IH]; simpl; [reflexivity|].
  destruct (Less x y); [|reflexivity].
  rewrite IH. apply perm_swap.
Qed.

Lemma fold_sink_Permutation (l before : list DirEntry) :
  Permutation (fold_left (fun before x => sink x before) l before) (rev l ++ before).
Proof.
  revert before. induction l as [|x l IH]; intros before; simpl; [reflexivity|].
  rewrite IH, sink_Permutation, <- app_assoc. simpl.
  apply Permutation_app_head. reflexivity.
Qed.

(** The insertion sort reorders. *)
Lemma insertionSorted_Permutation (l : list DirEntry) :
  Permutation (insertionSorted l) l.
Proof.
  unfold insertionSorted. rewrite <- Permutation_rev, fold_sink_Permutation, app_nil_r.
  symmetry. apply Permutation_rev.
Qed.

(** Sinking into elements in descending order keeps them so. *)
Lemma sink_descending (x : DirEntry) (before : list DirEntry) :
  StronglySorted (fun a b => nameLe b a) before ->
  StronglySorted (fun a b => nameLe b a) (sink x before).
Proof.
  induction 1 as [|y ys Hys IH Hy]; simpl.
  - repeat constructor.
  - destruct (Less x y) eqn:Hxy.
    + constructor; [exact IH|].
      rewrite sink_Permutation. constructor; [|exact Hy].
      unfold nameLe. apply StringOrder.ltb_asym. exact Hxy.
    + constructor; [constructor; assumption|].
      constructor; [exact Hxy|].
      eapply Forall_impl; [exact Hy|]. intros z Hz. unfold nameLe, Less in *.
      eapply StringOrder.ltb_negtrans; eassumption.
Qed.

Lemma fold_sink_descending (l before : list DirEntry) :
  StronglySorted (fun a b => nameLe b a) before ->
  StronglySorted (fun a b => nameLe b a)
    (fold_left (fun before x => sink x before) l before).
Proof.
  revert before. induction l as [|x l IH]; intros before Hb; simpl; [exact Hb|].
  apply IH, sink_descending, Hb.
Qed.

Lemma StronglySorted_rev (R : DirEntry -> DirEntry -> Prop) (l : list DirEntry) :
  StronglySorted (fun a b => R b a) l -> StronglySorted R (rev l).
Proof.
  induction 1 as [|x l Hl IH Hx]; simpl; [constructor|].
  apply StronglySorted_app_2; [|exact IH|repeat constructor].
  intros a b Ha Hb. apply list_elem_of_In in Ha, Hb.
  destruct Hb as [<-|[]]. rewrite Forall_forall in Hx.
  apply Hx, list_elem_of_In, in_rev. exact Ha.
Qed.

(** The insertion sort leaves no entry before one of a smaller name. *)
Lemma insertionSorted_sorted (l : list DirEntry) :
  StronglySorted nameLe (insertionSorted l).
Proof.
  unfold insertionSorted. apply StronglySorted_rev, fold_sink_descending.
  constructor.
Qed.

(** The insertion sort at every length meets what package sort says of
    [sort.Sort], and is [sort.Sort] on slices of at most 6 elements. The
    runs below use it on entries of distinct names or on at most 3
    entries, where every [Sorting] leaves the same order. *)
Definition insertionSorter : Sorting := {|
  sort_Sort := insertionSorted;
  sort_Sort_Permutation := insertionSorted_Permutation;
  sort_Sort_sorted := insertionSorted_sorted;
  sort_Sort_short := fun l _ => eq_refl;
|}.

Lemma NoDup_names_inj (l : list DirEntry) (a b : DirEntry) :
  List.NoDup (map Name l) -> In a l -> In b l -> Name a = Name b -> a = b.
Proof.
  induction l as [|x l IH]; simpl; intros Hnd Ha Hb Hname; [contradiction|].
  apply NoDup_cons_iff in Hnd as [Hx Hnd].
  destruct Ha as [<-|Ha], Hb as [<-|Hb]; auto.
  - exfalso. apply Hx. rewrite Hname. apply in_map. exact Hb.
  - exfalso. apply Hx. rewrite <- Hname. apply in_map. exact Ha.
Qed.

(** Entries of distinct names have one ascending order. *)
Lemma sorted_unique (l1 l2 : list DirEntry) :
  List.NoDup (map Name l1) ->
  StronglySorted nameLe l1 -> StronglySorted nameLe l2 ->
  Permutation l1 l2 -> l1 = l2.
Proof.
  intros Hnames Hs1 Hs2 Hperm.
  apply (StronglySorted_unique_strong nameLe); try assumption.
  intros a b Ha Hb Hab Hba.
  apply list_elem_of_In in Ha, Hb.
  apply (NoDup_names_inj l1); try assumption.
  - apply (Permutation_in _ (Permutation_sym Hperm)). exact Hb.
  - apply StringOrder.ltb_total; assumption.
Qed.

(** With distinct names the ascending order is strict. *)
Lemma sorted_strict (l : list DirEntry) :
  List.NoDup (map Name l) -> StronglySorted nameLe l ->
  StronglySorted (fun a b => Less a b = true) l.
Proof.
  intros Hnames Hs. induction Hs as [|x l Hs IH Hx]; [constructor|].
  cbn in Hnames. apply NoDup_cons_iff in Hnames as [Hx' Hnames].
  constructor; [apply IH, Hnames|].
  rewrite Forall_forall in *. intros y Hy.
  destruct (Less x y) eqn:Hxy; [reflexivity|]. exfalso. apply Hx'.
  rewrite (StringOrder.ltb_total _ _ Hxy (Hx y Hy)).
  apply in_map, list_elem_of_In. exact Hy.
Qed.

End Directory.

Section DirectoryClaims.
Context `{suite : CipherSuite} `{format : DirFormat} {sorting : Sorting}.

Lemma sort_Sort_insertion_order (l1 l2 : list DirEntry) :
  Permutation l1 l2 -> List.NoDup (map Name l1) -> sort_Sort l2 = sort_Sort l1.
Proof.
  intros Hperm Hnames. symmetry. apply sorted_unique.
  - apply (Permutation_NoDup (l := map Name l1)); [|exact Hnames].
    apply Permutation_map. symmetry. apply sort_Sort_Permutation.
  - apply sort_Sort_sorted.
  - apply sort_Sort_sorted.
  - rewrite !sort_Sort_Permutation. exact Hperm.
Qed.

(** C2, in general: with more than [maxSimpleDirEntries] entries
    [Finalize] panics, whatever the storage. *)
Theorem DirBlobWriter_Finalize_split_panics (storage : BlobStorage)
    (d : DirBlobWriter) (st : World storage) :
  maxSimpleDirEntries < len (entries d) ->
  DirBlobWriter_Finalize storage d st
  = (Panics "Unimplemented: split dir blob", d, st).
Proof.
  intros Hmany. unfold DirBlobWriter_Finalize, finalizeSplit.
  destruct (Z.leb_spec (len (entries d)) maxSimpleDirEntries); [lia | reflexivity].
Qed.

(** C6, amended. For entries of pairwise distinct names, at most
    [maxSimpleDirEntries] of them, added in the order [l1] or in any other
    order [l2]: the plaintext of the directory blob is the directory-type
    tag byte, the serialized count and the serialized entries in strictly
    ascending order of names; it is the same for both orders; and
    [Finalize] is the pipeline on that plaintext, so that both orders
    return the same capability from the same storage. *)
Theorem directory_blob_independent_of_insertion_order (storage : BlobStorage)
    (l1 l2 : list DirEntry) (st : World storage) :
  Permutation l1 l2 ->
  List.NoDup (map Name l1) ->
  len l1 <= maxSimpleDirEntries ->
  let sorted := sort_Sort l1 in
  Permutation sorted l1
  /\ StronglySorted (fun a b => Less a b = true) sorted
  /\ dirPlaintext (addAll l1)
     = [blobTypeSimpleStaticDir] ++ serializeInt (len l1) ++ flat_map serialize sorted
  /\ dirPlaintext (addAll l2) = dirPlaintext (addAll l1)
  /\ DirBlobWriter_Finalize storage (addAll l1) st
     = (let (r, st') :=
          createHashValidatedBlobFromReaderGenerator storage
            (fun _ => bytes_NewReader (dirPlaintext (addAll l1))) st in
        (r, {| entries := sorted |}, st'))
  /\ fst (fst (DirBlobWriter_Finalize storage (addAll l2) st))
     = fst (fst (DirBlobWriter_Finalize storage (addAll l1) st)).
Proof.
  intros Hperm Hnames Hfew sorted.
  assert (Hlen : len (sort_Sort l1) = len l1).
  { unfold len. f_equal. apply Permutation_length, sort_Sort_Permutation. }
  assert (Hplain : dirPlaintext (addAll l2) = dirPlaintext (addAll l1)).
  { unfold dirPlaintext. rewrite !entries_addAll.
    rewrite (sort_Sort_insertion_order l1 l2 Hperm Hnames). reflexivity. }
  assert (Hfin : forall l, len l <= maxSimpleDirEntries ->
            DirBlobWriter_Finalize storage (addAll l) st
            = (let (r, st') :=
                 createHashValidatedBlobFromReaderGenerator storage
                   (fun _ => bytes_NewReader (dirPlaintext (addAll l))) st in
               (r, {| entries := sort_Sort l |}, st'))).
  { intros l Hl. unfold DirBlobWriter_Finalize, finalizeSimple, dirPlaintext.
    rewrite !entries_addAll.
    destruct (Z.leb_spec (len l) maxSimpleDirEntries); [reflexivity | lia]. }
  split; [apply sort_Sort_Permutation|].
  split.
  { apply sorted_strict; [|apply sort_Sort_sorted].
    apply (Permutation_NoDup (l := map Name l1)); [|exact Hnames].
    apply Permutation_map. symmetry. apply sort_Sort_Permutation. }
  split.
  { unfold dirPlaintext, dirBuffer. rewrite entries_addAll, Hlen. reflexivity. }
  split; [exact Hplain|].
  split; [apply Hfin, Hfew|].
  rewrite !Hfin.
  - rewrite Hplain.
    destruct (createHashValidatedBlobFromReaderGenerator storage _ st). reflexivity.
  - exact Hfew.
  - unfold len in *. rewrite <- (Permutation_length Hperm). exact Hfew.
Qed.

End DirectoryClaims.

Section DirectoryRuns.
#[local] Existing Instance Sample.suite.
#[local] Existing Instance Sample.dirFormat.
#[local] Existing Instance insertionSorter.

Lemma DirBlobWriter_Finalize_split_panics_witness :
  maxSimpleDirEntries < len (entries (addAll (Sample.manyEntries 1025)))
  /\ DirBlobWriter_Finalize MemoryBlobStorage (addAll (Sample.manyEntries 1025))
       NewMemoryBlobStorage
     = (Panics "Unimplemented: split dir blob",
        addAll (Sample.manyEntries 1025), NewMemoryBlobStorage).
Proof.
  assert (Hmany : maxSimpleDirEntries
                  < len (entries (addAll (Sample.manyEntries 1025))))
    by (vm_compute; reflexivity).
  split; [exact Hmany|].
  exact (DirBlobWriter_Finalize_split_panics MemoryBlobStorage
           (addAll (Sample.manyEntries 1025)) NewMemoryBlobStorage Hmany).
Defined.

(** C6 as stated fails on two entries of one name, which [sort.Sort]
    hands to the insertion sort: the two orders of adding them give
    different plaintexts and different blob ids. *)
Lemma directory_blob_depends_on_order_of_equal_names :
  Permutation [Sample.entryA1; Sample.entryA2] [Sample.entryA2; Sample.entryA1]
  /\ len [Sample.entryA1; Sample.entryA2] <= maxSimpleDirEntries
  /\ dirPlaintext (addAll [Sample.entryA1; Sample.entryA2])
     <> dirPlaintext (addAll [Sample.entryA2; Sample.entryA1])
  /\ fst (fst (DirBlobWriter_Finalize MemoryBlobStorage
                 (addAll [Sample.entryA1; Sample.entryA2]) NewMemoryBlobStorage))
     <> fst (fst (DirBlobWriter_Finalize MemoryBlobStorage
                    (addAll [Sample.entryA2; Sample.entryA1]) NewMemoryBlobStorage)).
Proof.
  split; [apply perm_swap|].
  split; [vm_compute; discriminate|].
  split; vm_compute; intros Heq; discriminate Heq.
Qed.

Lemma directory_blob_independent_of_insertion_order_witness :
  let l1 := [Sample.entryB; Sample.entryA1] in
  let l2 := [Sample.entryA1; Sample.entryB] in
  Permutation l1 l2
  /\ List.NoDup (map Name l1)
  /\ len l1 <= maxSimpleDirEntries
  /\ Permutation (sort_Sort l1) l1
  /\ StronglySorted (fun a b => Less a b = true) (sort_Sort l1)
  /\ dirPlaintext (addAll l1)
     = [blobTypeSimpleStaticDir] ++ serializeInt (len l1)
         ++ flat_map serialize (sort_Sort l1)
  /\ dirPlaintext (addAll l2) = dirPlaintext (addAll l1)
  /\ DirBlobWriter_Finalize MemoryBlobStorage (addAll l1) NewMemoryBlobStorage
     = (let (r, st') :=
          createHashValidatedBlobFromReaderGenerator MemoryBlobStorage
            (fun _ => bytes_NewReader (dirPlaintext (addAll l1)))
            NewMemoryBlobStorage in
        (r, {| entries := sort_Sort l1 |}, st'))
  /\ fst (fst (DirBlobWriter_Finalize MemoryBlobStorage (addAll l2)
                 NewMemoryBlobStorage))
     = fst (fst (DirBlobWriter_Finalize MemoryBlobStorage (addAll l1)
                   NewMemoryBlobStorage)).
Proof.
  intros l1 l2.
  assert (Hperm : Permutation l1 l2) by apply perm_swap.
  assert (Hnames : List.NoDup (map Name l1)).
  { repeat constructor; cbn; intuition discriminate. }
  assert (Hfew : len l1 <= maxSimpleDirEntries) by (vm_compute; discriminate).
  split; [exact Hperm|]. split; [exact Hnames|]. split; [exact Hfew|].
  exact (directory_blob_independent_of_insertion_order MemoryBlobStorage
           l1 l2 NewMemoryBlobStorage Hperm Hnames Hfew).
Defined.

End DirectoryRuns.

(** ** The cipher factory *)

Section FactoryClaims.
Context `{suite : CipherSuite}.

(** C7. [CreateEncryptor] returns [ErrInsufficientKeySource] exactly when
    the key source has fewer than [MinKeySourceBytes] bytes, and returns no
    other error; from [MinKeySourceBytes] bytes on, and so at exactly that
    length, it returns an encryptor and a key, for an iv of any length. *)
Theorem CreateEncryptor_fails_iff_key_source_short
    (keySource iv sink : list byte) :
  (CreateEncryptor keySource iv sink = inr ErrInsufficientKeySource
   <-> len keySource < MinKeySourceBytes)
  /\ (forall e, CreateEncryptor keySource iv sink = inr e
                <-> e = ErrInsufficientKeySource /\ len keySource < MinKeySourceBytes)
  /\ ((exists encryptor key,
         CreateEncryptor keySource iv sink = inl (encryptor, key))
      <-> MinKeySourceBytes <= len keySource).
Proof.
  destruct (CreateEncryptor_cases keySource iv sink) as [[Hlen ->]|[Hlen ->]].
  - split; [split; intros _; [exact Hlen | reflexivity]|]. split.
    + intros e. split.
      * intros Heq. injection Heq as <-. split; [reflexivity | exact Hlen].
      * intros [-> _]. reflexivity.
    + split.
      * intros (encryptor & key0 & Heq). discriminate Heq.
      * intros Hge. lia.
  - split; [split; intros Hn; [discriminate Hn | lia]|]. split.
    + intros e. split; [intros Hn; discriminate Hn | intros [_ Hn]; lia].
    + split; [intros _; exact Hlen | intros _; eauto].
Qed.

(** C8. With a key source of [MinKeySourceBytes] bytes at least and any
    iv, the encryptor accepts all of a plaintext [P] in one [Write], and a
    decryptor created from the returned key and the same iv over the bytes
    the encryptor forwarded, read in any chunks, delivers exactly [P]. *)
Theorem decrypt_encrypt_roundtrip (keySource iv P : list byte) :
  MinKeySourceBytes <= len keySource ->
  exists encryptor key,
    CreateEncryptor keySource iv [] = inl (encryptor, key)
    /\ snd (write encryptor P) = (len P, None)
    /\ forall source : Reader,
         yields source (encryptAll encryptor P) ->
         exists decryptor,
           CreateDecryptor key iv source = inl decryptor
           /\ io_Copy {| Bytes := [] |} decryptor = ({| Bytes := P |}, None).
Proof.
  intros Hlen.
  destruct (CreateEncryptor_cases keySource iv []) as [[Hshort _]|[_ Henc]]; [lia|].
  eexists. eexists. split; [exact Henc|]. split; [reflexivity|].
  intros source [Hdelivered Herror]. unfold CreateDecryptor.
  rewrite parseKey_encodeKey by (apply deriveKey_length; exact Hlen).
  eexists. split; [reflexivity|].
  rewrite io_Copy_Buffer, delivered_decrypting, readError_decrypting.
  rewrite Hdelivered, Herror, encryptAll_eq. cbn [enc_sink enc_key enc_iv enc_pos app Bytes].
  rewrite xorKeyStream_involutive. reflexivity.
Qed.

End FactoryClaims.

Section FactoryRuns.
#[local] Existing Instance Sample.suite.

(** The lengths of TestFactoryEncryptorCreation and of
    TestFactoryEncryptorCreationFailure: [MinKeySourceBytes] and one less. *)
Lemma CreateEncryptor_fails_iff_key_source_short_witness :
  (exists encryptor key,
     CreateEncryptor (repeat Byte.x00 32) [] [] = inl (encryptor, key))
  /\ CreateEncryptor (repeat Byte.x00 31) [] [] = inr ErrInsufficientKeySource.
Proof.
  destruct (CreateEncryptor_fails_iff_key_source_short (repeat Byte.x00 32) [] [])
    as (_ & _ & Hlong).
  destruct (CreateEncryptor_fails_iff_key_source_short (repeat Byte.x00 31) [] [])
    as (Hshort & _).
  split.
  - apply Hlong. vm_compute. discriminate.
  - apply Hshort. vm_compute. reflexivity.
Defined.

Lemma decrypt_encrypt_roundtrip_witness :
  MinKeySourceBytes <= len (repeat Byte.x00 32)
  /\ exists encryptor key,
       CreateEncryptor (repeat Byte.x00 32) [] [] = inl (encryptor, key)
       /\ snd (write encryptor [Byte.x0d; Byte.x11]) = (len [Byte.x0d; Byte.x11], None)
       /\ forall source : Reader,
            yields source (encryptAll encryptor [Byte.x0d; Byte.x11]) ->
            exists decryptor,
              CreateDecryptor key [] source = inl decryptor
              /\ io_Copy {| Bytes := [] |} decryptor
                 = ({| Bytes := [Byte.x0d; Byte.x11] |}, None).
Proof.
  assert (Hlen : MinKeySourceBytes <= len (repeat Byte.x00 32))
    by (vm_compute; discriminate).
  split; [exact Hlen|].
  exact (decrypt_encrypt_roundtrip (repeat Byte.x00 32) [] [Byte.x0d; Byte.x11] Hlen).
Defined.

(** TestFactoryKeyLengthReuqirement and TestFactoryIVLength, whose loops
    range over the indexes of their slices: key sources of 0, 1 and 2
    bytes are refused, ivs of 0 to 7 bytes are accepted. *)
Example factory_length_tests :
  Forall (fun l => CreateEncryptor (repeat Byte.x00 l) [] []
                   = inr ErrInsufficientKeySource) [0; 1; 2]%nat
  /\ Forall (fun l => exists encryptor key,
                CreateEncryptor (repeat Byte.x00 (Z.to_nat MinKeySourceBytes))
                  (repeat Byte.x00 l) [] = inl (encryptor, key))
       (seq 0 8).
Proof. split; repeat constructor; repeat eexists. Qed.

(** TestFactoryFailDecryptor: the five key strings that must be refused. *)
Example factory_decryptor_tests :
  Forall (fun ks => CreateDecryptor ks [] EOF = inr ErrInvalidKey)
    [ ""; "a"; "z"; "FFABCDABCDABCDABCDABCDABCDABCDABCD";
      "010000000000000000" ]%string.
Proof. repeat constructor. Qed.

End FactoryRuns.

(** ** The chunked file writer *)

Section FileClaims.
Context `{suite : CipherSuite}.

Lemma storeStream_small (storage : BlobStorage) (blockSize : Z) (depth : nat)
    (content : list byte) (st : World storage) :
  len content <= blockSize ->
  storeStream storage blockSize depth content st
  = Some (storeUnit storage content st).
Proof.
  intros Hsmall.
  destruct depth; cbn [storeStream];
    destruct (Z.leb_spec (len content) blockSize); (reflexivity || lia).
Qed.

Lemma storeStream_large (storage : BlobStorage) (blockSize : Z) (depth : nat)
    (content : list byte) (st : World storage) :
  blockSize < len content ->
  storeStream storage blockSize (S depth) content st
  = match storeBlocks storage
            (splitBlocks (List.length content) (Z.to_nat blockSize) content) st with
    | (inl caps, st') =>
        if len (indexRecord (len content) caps) <=? blockSize then
          Some (createHashValidatedBlobFromReaderGenerator storage
                  (fun _ => bytes_NewReader (indexRecord (len content) caps)) st')
        else storeStream storage blockSize depth (indexRecord (len content) caps) st'
    | (inr o, st') => Some (o, st')
    end.
Proof.
  intros Hlarge. cbn [storeStream].
  destruct (Z.leb_spec (len content) blockSize); [lia | reflexivity].
Qed.

(** One byte more than a block makes two blocks. *)
Lemma splitBlocks_one_more (size : nat) (content : list byte) (b : byte) :
  List.length content = size -> (0 < size)%nat ->
  splitBlocks (List.length (content ++ [b])) size (content ++ [b]) = [content; [b]].
Proof.
  intros Hsize Hpos.
  rewrite length_app, Nat.add_1_r, Hsize.
  destruct (content ++ [b]) as [|c rest] eqn:Happ.
  { destruct content; discriminate Happ. }
  rewrite <- Happ. cbn [splitBlocks].
  assert (Hfirst : firstn size (content ++ [b]) = content).
  { rewrite <- Hsize, firstn_app, Nat.sub_diag, firstn_all. cbn. apply app_nil_r. }
  assert (Hskip : skipn size (content ++ [b]) = [b]).
  { rewrite <- Hsize, skipn_app, Nat.sub_diag, skipn_all. reflexivity. }
  rewrite Happ at 1. rewrite Hfirst, Hskip.
  destruct size as [|k]; [lia|]. cbn [splitBlocks firstn skipn].
  destruct k; reflexivity.
Qed.

(** A uvarint of a [uint64] takes ten bytes at most. *)
Lemma putUvarint_length (rounds : nat) (x : Z) :
  (List.length (putUvarint rounds x) <= S rounds)%nat.
Proof.
  revert x. induction rounds as [|rounds IH]; intros x; cbn [putUvarint].
  - cbn. lia.
  - destruct (128 <=? x); cbn [List.length]; [|lia].
    specialize (IH (Z.shiftr x 7)). lia.
Qed.

Lemma serializeUvarint_length (v : Z) : len (serializeUvarint v) <= 10.
Proof.
  unfold len, serializeUvarint.
  pose proof (putUvarint_length 9 (v mod 2 ^ 64)). lia.
Qed.

Lemma bytes_of_string_length (s : string) :
  List.length (bytes_of_string s) = String.length s.
Proof.
  unfold bytes_of_string. induction s as [|c s IH]; [reflexivity|].
  cbn. f_equal. exact IH.
Qed.

Lemma serializeString_length (s : string) :
  len (serializeString s) <= 10 + Z.of_nat (String.length s).
Proof.
  unfold serializeString. rewrite len_app.
  pose proof (serializeUvarint_length (len (bytes_of_string s))).
  assert (len (bytes_of_string s) = Z.of_nat (String.length s))
    by (unfold len; rewrite bytes_of_string_length; reflexivity).
  lia.
Qed.

(** The strings of a capability: 128 digits of blob id, and two digits for
    the tag and for every byte of the key. *)
Lemma capabilityOf_lengths (P : list byte) :
  MinKeySourceBytes <= 64 ->
  String.length (blobIdOf P) = 128%nat
  /\ String.length (encodeKey (keyOf P)) = (2 + 2 * KeyBytes)%nat.
Proof.
  intros Hmin. unfold blobIdOf, encodeKey, keyOf.
  rewrite !hexFacts.EncodeToString_length. split.
  - pose proof (sha512Facts.Sum512_length (ciphertextOf P)) as Hlen.
    unfold len, sha512.Size in Hlen. lia.
  - cbn [List.length]. rewrite deriveKey_length; [lia|].
    rewrite sha512Facts.Sum512_length. unfold sha512.Size. exact Hmin.
Qed.

(** The index record of two blocks fits a block. *)
Lemma indexRecord_two_fits (size : Z) (P1 P2 : list byte) :
  MinKeySourceBytes <= 64 ->
  Z.of_nat KeyBytes <= 1024 * 1024 ->
  len (indexRecord size [capabilityOf P1; capabilityOf P2]) <= BlockSize.
Proof.
  intros Hmin Hkey. unfold indexRecord, capabilityOf.
  cbn [flat_map fst snd]. rewrite !len_app.
  destruct (capabilityOf_lengths P1 Hmin) as [Hb1 Hk1].
  destruct (capabilityOf_lengths P2 Hmin) as [Hb2 Hk2].
  pose proof (serializeUvarint_length size).
  pose proof (serializeUvarint_length (len [capabilityOf P1; capabilityOf P2])).
  pose proof (serializeString_length (blobIdOf P1)).
  pose proof (serializeString_length (blobIdOf P2)).
  pose proof (serializeString_length (encodeKey (keyOf P1))).
  pose proof (serializeString_length (encodeKey (keyOf P2))).
  change (len [blobTypeSplitStaticFile]) with 1.
  change (len (@nil byte)) with 0.
  unfold capabilityOf in *. unfold BlockSize. lia.
Qed.

(** A run on the plaintext [P] that returns without error returns the
    capability of [P] and adds to the calls made before the session that
    stores the blob of [P]. *)
Lemma pipeline_stores (storage : BlobStorage) (P : list byte)
    (st : World storage) (log0 : list (Call (BlobWriter storage))) (r : result) :
  let run := createHashValidatedBlobFromReaderGenerator (Recording storage)
               (fun _ => bytes_NewReader P) (st, log0) in
  fst run = Returns r -> err r = None ->
  MinKeySourceBytes <= 64
  /\ r = Result (blobIdOf P) (encodeKey (keyOf P)) None
  /\ exists w, snd (snd run) = log0 ++ session w P.
Proof.
  intros run. subst run. rewrite pipeline_unfold, !delivered_bytes_NewReader.
  destruct (createEncryptor_of_digest P []) as [[Hmin ->]|[Hmin ->]].
  - intros [= <-] Herr. discriminate Herr.
  - cbv zeta. cbn [enc_key enc_iv enc_pos enc_sink app]. intros Hr Herr.
    split; [exact Hmin|]. split.
    + destruct (storeBlob_result _ _ _ _ _ _ Hr) as [Hbid Hkey].
      destruct r as [bid0 key0 err0]. cbn [bid key err] in *. subst.
      reflexivity.
    + exact (storeBlob_recorded_success_from storage _ _ _ st log0 r Hr Herr).
Qed.

Lemma accepting_Recording (storage : BlobStorage) :
  accepting storage -> accepting (Recording storage).
Proof.
  intros (Hnew & Hwrite & Hfin). split; [|split].
  - intros blobId [st log]. destruct (Hnew blobId st) as [w Hw]. exists w.
    cbn [NewBlobWriter Recording].
    destruct (NewBlobWriter storage blobId st) as [opened st']. exact Hw.
  - intros w p [st log]. pose proof (Hwrite w p st) as Hw.
    cbn [Write Recording].
    destruct (Write storage w p st) as [count st']. exact Hw.
  - intros w [st log]. pose proof (Hfin w st) as Hw.
    cbn [Finalize Recording].
    destruct (Finalize storage w st) as [failed st']. exact Hw.
Qed.

(** On a storage that refuses nothing, with a factory content with the 64
    bytes of a digest, every run returns without error. *)
Lemma pipeline_accepting (storage : BlobStorage)
    (readerGenerator : nat -> Reader) (st : World storage) :
  accepting storage -> MinKeySourceBytes <= 64 ->
  exists r,
    fst (createHashValidatedBlobFromReaderGenerator storage readerGenerator st)
    = Returns r
    /\ err r = None.
Proof.
  intros Haccepting Hmin. rewrite pipeline_unfold.
  destruct (createEncryptor_of_digest (delivered (readerGenerator 0%nat)) [])
    as [[Hshort _]|[_ ->]]; [lia|].
  cbv zeta.
  match goal with
  | |- context [storeBlob storage ?bid0 ?key0 ?ct st] =>
      destruct (storeBlob_accepting storage bid0 key0 ct st Haccepting)
        as [st' Hrun]
  end.
  rewrite Hrun. eexists. split; reflexivity.
Qed.

(** The file of exactly one block: one run of the pipeline. *)
Lemma single_block_run (storage : BlobStorage) (content : list byte)
    (st : World storage) :
  len content <= BlockSize ->
  let unit := blobTypeSimpleStaticFile :: content in
  exists o st' log,
    FileBlobWriter_Finalize (Recording storage) {| written := content |} (st, [])
    = Some (o, (st', log))
    /\ (forall r, o = Returns r -> err r = None ->
          (bid r, key r) = capabilityOf unit
          /\ exists w, log = session w unit)
    /\ (accepting storage -> MinKeySourceBytes <= 64 ->
          exists r, o = Returns r /\ err r = None).
Proof.
  intros Hlen unit. unfold FileBlobWriter_Finalize. cbn [written].
  rewrite storeStream_small by exact Hlen. unfold storeUnit. fold unit.
  pose proof (pipeline_stores storage unit st []) as Hstores.
  pose proof (pipeline_accepting (Recording storage) (fun _ => bytes_NewReader unit)
                (st, [])) as Haccepts.
  cbv zeta in Hstores.
  destruct (createHashValidatedBlobFromReaderGenerator (Recording storage)
              (fun _ => bytes_NewReader unit) (st, [])) as [o [st' log]].
  cbn [fst snd] in *. exists o, st', log. split; [reflexivity|]. split.
  - intros r -> Herr. destruct (Hstores r eq_refl Herr) as (_ & -> & w & ->).
    split; [reflexivity|]. exists w. reflexivity.
  - intros Haccepting Hmin. apply Haccepts; [|exact Hmin].
    apply accepting_Recording, Haccepting.
Qed.

(** The file of one block and one byte: three runs of the pipeline, on the
    two blocks and on the index record of their capabilities. *)
Lemma two_block_run (storage : BlobStorage) (content : list byte) (b : byte)
    (st : World storage) :
  len content = BlockSize ->
  Z.of_nat KeyBytes <= 1024 * 1024 ->
  let first := blobTypeSimpleStaticFile :: content in
  let last := [blobTypeSimpleStaticFile; b] in
  let record :=
    indexRecord (BlockSize + 1) [capabilityOf first; capabilityOf last] in
  exists o st' log,
    FileBlobWriter_Finalize (Recording storage) {| written := content ++ [b] |}
      (st, [])
    = Some (o, (st', log))
    /\ (forall r, o = Returns r -> err r = None ->
          (bid r, key r) = capabilityOf record
          /\ exists w1 w2 w3,
               log = session w1 first ++ session w2 last ++ session w3 record)
    /\ (accepting storage -> MinKeySourceBytes <= 64 ->
          exists r, o = Returns r /\ err r = None).
Proof.
  intros Hlen Hkey first last record.
  assert (Hsize : List.length content = Z.to_nat BlockSize).
  { unfold len in Hlen. rewrite <- Hlen, Nat2Z.id. reflexivity. }
  assert (Hwhole : len (content ++ [b]) = BlockSize + 1).
  { rewrite len_app, Hlen. reflexivity. }
  assert (Hrecording : accepting storage -> accepting (Recording storage))
    by apply accepting_Recording.
  assert (Hrun :
    FileBlobWriter_Finalize (Recording storage) {| written := content ++ [b] |}
      (st, [])
    = match storeBlocks (Recording storage) [content; [b]] (st, []) with
      | (inl caps, st') =>
          if len (indexRecord (BlockSize + 1) caps) <=? BlockSize then
            Some (createHashValidatedBlobFromReaderGenerator (Recording storage)
                    (fun _ => bytes_NewReader (indexRecord (BlockSize + 1) caps)) st')
          else storeStream (Recording storage) BlockSize (List.length content)
                 (indexRecord (BlockSize + 1) caps) st'
      | (inr o, st') => Some (o, st')
      end).
  { unfold FileBlobWriter_Finalize. cbn [written].
    assert (Hdepth : List.length (content ++ [b]) = S (List.length content))
      by (rewrite length_app, Nat.add_1_r; reflexivity).
    rewrite Hdepth at 1.
    rewrite storeStream_large by (rewrite Hwhole; lia).
    assert (Hpos : 0 < BlockSize) by reflexivity.
    rewrite splitBlocks_one_more by (exact Hsize || lia).
    rewrite Hwhole. reflexivity. }
  rewrite Hrun. clear Hrun.
  cbn [storeBlocks]. unfold storeUnit. fold first. fold last.
  (* the first block *)
  pose proof (pipeline_stores storage first st []) as Hfirst.
  pose proof (pipeline_accepting (Recording storage) (fun _ => bytes_NewReader first)
                (st, [])) as Hfirst'.
  cbv zeta in Hfirst.
  destruct (createHashValidatedBlobFromReaderGenerator (Recording storage)
              (fun _ => bytes_NewReader first) (st, [])) as [o1 [st1 log1]].
  cbn [fst snd] in Hfirst, Hfirst'.
  destruct o1 as [[bid1 key1 [e1|]]|msg1].
  { do 3 eexists. split; [reflexivity|]. split.
    - intros r [= <-] Herr. discriminate Herr.
    - intros Haccepting Hmin.
      destruct (Hfirst' (Hrecording Haccepting) Hmin) as (r & [= <-] & Herr).
      discriminate Herr. }
  2: { do 3 eexists. split; [reflexivity|]. split.
       - intros r Hr. discriminate Hr.
       - intros Haccepting Hmin.
         destruct (Hfirst' (Hrecording Haccepting) Hmin) as (r & Hr & _).
         discriminate Hr. }
  destruct (Hfirst _ eq_refl eq_refl) as (Hmin & Hcap1 & w1 & Hlog1).
  injection Hcap1 as -> ->. cbn [app] in Hlog1. subst log1.
  clear Hfirst Hfirst'.
  (* the last byte *)
  pose proof (pipeline_stores storage last st1 (session w1 first)) as Hlast.
  pose proof (pipeline_accepting (Recording storage) (fun _ => bytes_NewReader last)
                (st1, session w1 first)) as Hlast'.
  cbv zeta in Hlast.
  destruct (createHashValidatedBlobFromReaderGenerator (Recording storage)
              (fun _ => bytes_NewReader last) (st1, session w1 first))
    as [o2 [st2 log2]].
  cbn [fst snd] in Hlast, Hlast'.
  destruct o2 as [[bid2 key2 [e2|]]|msg2].
  { do 3 eexists. split; [reflexivity|]. split.
    - intros r [= <-] Herr. discriminate Herr.
    - intros Haccepting _.
      destruct (Hlast' (Hrecording Haccepting) Hmin) as (r & [= <-] & Herr).
      discriminate Herr. }
  2: { do 3 eexists. split; [reflexivity|]. split.
       - intros r Hr. discriminate Hr.
       - intros Haccepting _.
         destruct (Hlast' (Hrecording Haccepting) Hmin) as (r & Hr & _).
         discriminate Hr. }
  destruct (Hlast _ eq_refl eq_refl) as (_ & Hcap2 & w2 & Hlog2).
  injection Hcap2 as -> ->. subst log2. clear Hlast Hlast'.
  (* the index record *)
  change [(blobIdOf first, encodeKey (keyOf first));
          (blobIdOf last, encodeKey (keyOf last))]
    with [capabilityOf first; capabilityOf last].
  fold record.
  assert (Hfits : len record <= BlockSize)
    by exact (indexRecord_two_fits (BlockSize + 1) first last Hmin Hkey).
  destruct (Z.leb_spec (len record) BlockSize) as [_|Hlong]; [|lia].
  pose proof (pipeline_stores storage record st2
                (session w1 first ++ session w2 last)) as Hrecord.
  pose proof (pipeline_accepting (Recording storage) (fun _ => bytes_NewReader record)
                (st2, session w1 first ++ session w2 last)) as Hrecord'.
  cbv zeta in Hrecord.
  destruct (createHashValidatedBlobFromReaderGenerator (Recording storage)
              (fun _ => bytes_NewReader record)
              (st2, session w1 first ++ session w2 last)) as [o3 [st3 log3]].
  cbn [fst snd] in Hrecord, Hrecord'.
  exists o3, st3, log3. split; [reflexivity|]. split.
  - intros r -> Herr. destruct (Hrecord r eq_refl Herr) as (_ & -> & w3 & ->).
    split; [reflexivity|]. exists w1, w2, w3. rewrite <- app_assoc. reflexivity.
  - intros Haccepting _. exact (Hrecord' (Hrecording Haccepting) Hmin).
Qed.

(** C9. With [BlockSize] = 16·1024·1024 bytes, and keys of at most a
    mebibyte. Finalizing a writer that holds exactly [BlockSize] bytes
    ends, and when it returns without error it has stored one blob, that of
    the content behind the file type byte, and returns the capability of
    that blob: no index. Finalizing a writer that holds one byte more ends,
    and when it returns without error it has stored three blobs in turn:
    the first [BlockSize] bytes and the last byte, each behind the file
    type byte, and the index record, which lists the size of the content
    and the capabilities of these two blocks; it returns the capability of
    the index record. Both return without error on a storage that refuses
    nothing, when the factory is content with a digest as key source. *)
Theorem file_writer_block_boundary (storage : BlobStorage)
    (content : list byte) (b : byte) (st : World storage) :
  len content = BlockSize ->
  Z.of_nat KeyBytes <= 1024 * 1024 ->
  let first := blobTypeSimpleStaticFile :: content in
  let last := [blobTypeSimpleStaticFile; b] in
  let record :=
    indexRecord (BlockSize + 1) [capabilityOf first; capabilityOf last] in
  BlockSize = 16 * 1024 * 1024
  /\ (exists o st' log,
        FileBlobWriter_Finalize (Recording storage) {| written := content |} (st, [])
        = Some (o, (st', log))
        /\ (forall r, o = Returns r -> err r = None ->
              (bid r, key r) = capabilityOf first
              /\ exists w, log = session w first)
        /\ (accepting storage -> MinKeySourceBytes <= 64 ->
              exists r, o = Returns r /\ err r = None))
  /\ (exists o st' log,
        FileBlobWriter_Finalize (Recording storage) {| written := content ++ [b] |}
          (st, [])
        = Some (o, (st', log))
        /\ (forall r, o = Returns r -> err r = None ->
              (bid r, key r) = capabilityOf record
              /\ exists w1 w2 w3,
                   log = session w1 first ++ session w2 last ++ session w3 record)
        /\ (accepting storage -> MinKeySourceBytes <= 64 ->
              exists r, o = Returns r /\ err r = None)).
Proof.
  intros Hlen Hkey first last record. split; [reflexivity|]. split.
  - apply single_block_run. lia.
  - apply two_block_run; assumption.
Qed.

End FileClaims.

Section FileRuns.
#[local] Existing Instance Sample.suite.

Lemma accepting_Overwriting : accepting Sample.Overwriting.
Proof.
  split; [|split].
  - intros blobId st. exists blobId. reflexivity.
  - intros w p st. reflexivity.
  - intros w st. reflexivity.
Qed.

Lemma file_writer_block_boundary_witness :
  let first := blobTypeSimpleStaticFile :: Sample.borderFile in
  let last := [blobTypeSimpleStaticFile; Byte.x61] in
  let record :=
    indexRecord (BlockSize + 1) [capabilityOf first; capabilityOf last] in
  len Sample.borderFile = BlockSize
  /\ Z.of_nat KeyBytes <= 1024 * 1024
  /\ accepting Sample.Overwriting
  /\ MinKeySourceBytes <= 64
  /\ BlockSize = 16 * 1024 * 1024
  /\ (exists st' w,
        FileBlobWriter_Finalize (Recording Sample.Overwriting)
          {| written := Sample.borderFile |} (∅, [])
        = Some (Returns (Result (blobIdOf first) (encodeKey (keyOf first)) None),
                (st', session w first)))
  /\ (exists st' w1 w2 w3,
        FileBlobWriter_Finalize (Recording Sample.Overwriting)
          {| written := Sample.borderFile ++ [Byte.x61] |} (∅, [])
        = Some (Returns (Result (blobIdOf record) (encodeKey (keyOf record)) None),
                (st', session w1 first ++ session w2 last ++ session w3 record))).
Proof.
  intros first last record.
  assert (Hlen : len Sample.borderFile = BlockSize).
  { unfold len, Sample.borderFile. rewrite repeat_length. apply Z2Nat.id. discriminate. }
  assert (Hkey : Z.of_nat KeyBytes <= 1024 * 1024) by (cbn; lia).
  assert (Hmin : MinKeySourceBytes <= 64) by (cbn; lia).
  split; [exact Hlen|]. split; [exact Hkey|].
  split; [exact accepting_Overwriting|]. split; [exact Hmin|].
  destruct (file_writer_block_boundary Sample.Overwriting Sample.borderFile Byte.x61
              ∅ Hlen Hkey)
    as (Hsize & (o1 & st1 & log1 & Hrun1 & Hstored1 & Hreturns1)
              & (o2 & st2 & log2 & Hrun2 & Hstored2 & Hreturns2)).
  split; [exact Hsize|]. split.
  - destruct (Hreturns1 accepting_Overwriting Hmin) as (r & -> & Herr).
    destruct (Hstored1 r eq_refl Herr) as (Hcap & w & ->).
    exists st1, w. rewrite Hrun1. destruct r as [bid0 key0 err0].
    cbn [bid key err] in Hcap, Herr. unfold capabilityOf in Hcap.
    apply pair_equal_spec in Hcap as [Hbid Hkey0].
    rewrite Hbid, Hkey0, Herr. reflexivity.
  - destruct (Hreturns2 accepting_Overwriting Hmin) as (r & -> & Herr).
    destruct (Hstored2 r eq_refl Herr) as (Hcap & w1 & w2 & w3 & ->).
    exists st2, w1, w2, w3. rewrite Hrun2. destruct r as [bid0 key0 err0].
    cbn [bid key err] in Hcap, Herr. unfold capabilityOf in Hcap.
    apply pair_equal_spec in Hcap as [Hbid Hkey0].
    rewrite Hbid, Hkey0, Herr. reflexivity.
Defined.

(** TestSimpleFiles: the keys expected for the four files, with the key
    the first 32 bytes of the digest of the plaintext. The expected blobs
    and ids depend on the cipher, which is not at hand. *)
Example simple_file_keys :
  map (fun content : string =>
         let bw := fst (write {| written := [] |} (bytes_of_string content)) in
         option_map (fun run => key (Sample.resultOf (fst run)))
           (FileBlobWriter_Finalize MemoryBlobStorage bw NewMemoryBlobStorage))
      [ ""; "a"; "Hello World!";
        "abcdefghijklmnopqrstuvwxyzABCDEFGHIJKLMNOPQRSTUVWXYZ" ]%string
  = [ Some "017b54b66836c1fbdd13d2441d9e1434dc62ca677fb68f5fe66a464baadecdbd00";
      Some "01504ce2f6de7e33389deb73b21f765570ad2b9f2aa8aaec8328f47b48bc3e841f";
      Some "01ac9d259134ccef987f9f4df3115b0b7a24b379cbebb2aaa91ed811c8cf5e0907";
      Some "01b11ef5debd728940485629e342c572bcc5b103d7b56de27b07f901b4abcdb5d4" ]%string.
Proof. vm_compute. reflexivity. Qed.

(** TestSplitFiles1: the key expected for the file of [BlockSize] + 1
    bytes 'a' is that of the index record of two blocks, whose ids and keys
    are the ones the tests expect of the file of [BlockSize] bytes 'a'
    (TestSimpleFileBorder) and of the file "a" (TestSimpleFiles). *)
Example split_file_index_key :
  encodeKey
    (keyOf
       (indexRecord (BlockSize + 1)
          [ ("a81ab8676d6fd4a6492dc817de80897e7b504d6bc7743c55cfd44f2863be6bed5c8ef02e7177666547abf9bf4646adf09764477330a968a1255cfb43f7cb4b50",
             "01bf10a3a98a6bf052317e37199dcea98ec846a258ff1023023c30acd86e35e40e");
            ("c9d30a9938ecea16bed58efe5ad5b998927a56da7c8c36c1ee13292dec79aa50c5613fc90d80c37a77a5a422691d1967693a1236892e228ad95ed6fe4b505d85",
             "01504ce2f6de7e33389deb73b21f765570ad2b9f2aa8aaec8328f47b48bc3e841f") ]%string))
  = "01bffd8d7830029b88367640a067ce1e0220a929fdd20c0a9157f6e1e094b19ff2"%string.
Proof. vm_compute. reflexivity. Qed.

(** The index record of that file starts with the type byte, the size
    16777217 and the count 2, one byte each but the size. *)
Example split_file_index_head :
  firstn 6 (indexRecord (BlockSize + 1) [("", ""); ("", "")]%string)
  = [Byte.x02; Byte.x81; Byte.x80; Byte.x80; Byte.x08; Byte.x02].
Proof. vm_compute. reflexivity. Qed.

(** The splitting rule at work on blocks of 512 bytes and the memory
    storage: 513 bytes are stored as three blobs, and the capability
    returned is that of the index record of the two blocks. *)
Example split_file_in_memory :
  let content := repeat Byte.x61 513 in
  let first := blobTypeSimpleStaticFile :: repeat Byte.x61 512 in
  let last := [blobTypeSimpleStaticFile; Byte.x61] in
  let record := indexRecord 513 [capabilityOf first; capabilityOf last] in
  option_map (fun run => (fst run, size (blobs (snd run))))
    (storeStream MemoryBlobStorage 512 513 content NewMemoryBlobStorage)
  = Some (Returns (Result (blobIdOf record) (encodeKey (keyOf record)) None),
          3%nat).
Proof. vm_compute. reflexivity. Qed.

End FileRuns.

(** ** More on the pipeline *)

Section PipelineMore.
Context `{suite : CipherSuite} (storage : BlobStorage).

(** What is returned as id and key: nothing, with
    [ErrInsufficientKeySource] and an untouched storage, when the factory
    wants more than the 64 bytes of a SHA-512 digest; else the key of the
    digest of what the first reader delivered, and the hexadecimal digest of
    the encryption of what the second reader delivered, also when the
    storage fails and an error comes with them. *)
Theorem pipeline_returns_id_and_key (readerGenerator : nat -> Reader)
    (st : World storage) (r : result) :
  let run := createHashValidatedBlobFromReaderGenerator storage readerGenerator st in
  fst run = Returns r ->
  (64 < MinKeySourceBytes
   /\ r = Result "" "" (Some ErrInsufficientKeySource) /\ snd run = st)
  \/ (MinKeySourceBytes <= 64
      /\ let k := deriveKey (sha512.Sum512 (delivered (readerGenerator 0%nat))) in
         key r = encodeKey k
         /\ bid r = hex.EncodeToString
                      (sha512.Sum512
                         (xorKeyStream k [] 0 (delivered (readerGenerator 1%nat))))).
Proof.
  intros run. subst run. rewrite pipeline_unfold.
  destruct (createEncryptor_of_digest (delivered (readerGenerator 0%nat)) [])
    as [[Hmin ->]|[Hmin ->]]; cbn [fst snd enc_key enc_iv enc_pos enc_sink app].
  - intros [= <-]. left. auto.
  - intros Hr. right. split; [exact Hmin|].
    destruct (storeBlob_result _ _ _ _ _ _ Hr) as [-> ->]. split; reflexivity.
Qed.

(** A run depends on the producer only through the bytes its first two
    readers deliver: neither the chunks they come in nor the errors the
    readers end with change what is returned or stored. *)
Theorem pipeline_depends_on_delivered_bytes
    (readerGenerator1 readerGenerator2 : nat -> Reader) (st : World storage) :
  delivered (readerGenerator1 0%nat) = delivered (readerGenerator2 0%nat) ->
  delivered (readerGenerator1 1%nat) = delivered (readerGenerator2 1%nat) ->
  createHashValidatedBlobFromReaderGenerator storage readerGenerator1 st
  = createHashValidatedBlobFromReaderGenerator storage readerGenerator2 st.
Proof. intros H0 H1. rewrite !pipeline_unfold, H0, H1. reflexivity. Qed.

Lemma pipeline_no_panic (readerGenerator : nat -> Reader) (st : World storage) :
  honestWrites storage ->
  exists r,
    fst (createHashValidatedBlobFromReaderGenerator storage readerGenerator st)
    = Returns r.
Proof.
  intros Hhonest. rewrite pipeline_unfold.
  destruct (createEncryptor _ [] []) as [[encryptor key0]|e]; [|eexists; reflexivity].
  cbv zeta. generalize (enc_sink encryptor ++ xorKeyStream (enc_key encryptor)
    (enc_iv encryptor) (enc_pos encryptor) (delivered (readerGenerator 1%nat))).
  intros ct. generalize (hex.EncodeToString (sha512.Sum512 ct)). intros bid0.
  unfold storeBlob, Buffer_WriteTo.
  destruct (NewBlobWriter storage bid0 st) as [[w|e] st1]; [|eexists; reflexivity].
  destruct (Write storage w [validationMethodHash] st1) as [[n [e|]] st2];
    [eexists; reflexivity|].
  destruct ct as [|c ct].
  - destruct (Finalize storage w st2) as [[e|] st3]; eexists; reflexivity.
  - pose proof (Hhonest w (c :: ct) st2) as Hcount.
    destruct (Write storage w (c :: ct) st2) as [[m e] st3]. cbn [fst] in Hcount.
    destruct (Z.ltb_spec (len (c :: ct)) m); [lia|].
    destruct e as [e|]; [eexists; reflexivity|].
    destruct (m =? len (c :: ct)); [|eexists; reflexivity].
    destruct (Finalize storage w st3) as [[e|] st4]; eexists; reflexivity.
Qed.

(** On a storage whose writers never report more bytes than they were
    given, the function returns: it does not panic. *)
Theorem pipeline_returns_on_honest_storage (readerGenerator : nat -> Reader)
    (st : World storage) :
  honestWrites storage ->
  exists r,
    fst (createHashValidatedBlobFromReaderGenerator storage readerGenerator st)
    = Returns r.
Proof. apply pipeline_no_panic. Qed.

(** A run that panics has opened a staged writer, written the tag byte
    and offered the ciphertext, and made no other call: the writer is
    neither finalized nor cancelled. *)
Theorem pipeline_panic_leaves_writer_open (readerGenerator : nat -> Reader)
    (st : World storage) (msg : string) :
  let run := createHashValidatedBlobFromReaderGenerator (Recording storage)
               readerGenerator (st, []) in
  fst run = Panics msg ->
  exists b w ct,
    ct <> []
    /\ snd (snd run)
       = [CallNewBlobWriter b (Some w); CallWrite w [validationMethodHash];
          CallWrite w ct].
Proof.
  intros run. subst run. rewrite pipeline_unfold.
  destruct (createEncryptor _ [] []) as [[encryptor key0]|e]; [|discriminate].
  cbv zeta. generalize (enc_sink encryptor ++ xorKeyStream (enc_key encryptor)
    (enc_iv encryptor) (enc_pos encryptor) (delivered (readerGenerator 1%nat))).
  intros ct. generalize (hex.EncodeToString (sha512.Sum512 ct)). intros bid0.
  unfold storeBlob, Buffer_WriteTo.
  destruct ct; storage_cases storage; intros Hr; try discriminate Hr.
  all: eexists; eexists; eexists; (split; [|reflexivity]); discriminate.
Qed.

(** The calls of any run: none, or first the one [NewBlobWriter], and
    after it, if a writer was opened, only calls on that writer; never
    [NewBlobReader], never a second writer. *)
Theorem pipeline_call_discipline (readerGenerator : nat -> Reader)
    (st : World storage) :
  let log := snd (snd (createHashValidatedBlobFromReaderGenerator
                         (Recording storage) readerGenerator (st, []))) in
  log = []
  \/ (exists b, log = [CallNewBlobWriter b None])
  \/ (exists b w rest,
        log = CallNewBlobWriter b (Some w) :: rest /\ Forall (writerCall w) rest).
Proof.
  intros log. subst log. rewrite pipeline_unfold.
  destruct (createEncryptor _ [] []) as [[encryptor key0]|e]; [|left; reflexivity].
  right. cbv zeta. generalize (enc_sink encryptor ++ xorKeyStream (enc_key encryptor)
    (enc_iv encryptor) (enc_pos encryptor) (delivered (readerGenerator 1%nat))).
  intros ct. generalize (hex.EncodeToString (sha512.Sum512 ct)). intros bid0.
  unfold storeBlob, Buffer_WriteTo.
  destruct ct; storage_cases storage;
    first [ left; eexists; reflexivity
          | right; eexists; eexists; eexists; split;
            [reflexivity | repeat constructor] ].
Qed.

End PipelineMore.

Section PipelinePaths.
Context `{suite : CipherSuite} (storage : BlobStorage).

(** When the staged writer takes the tag byte, whatever count it reports
    for it, and then answers the write of a ciphertext that is not empty
    with an error or with a count below its length, the function cancels
    the writer and returns, with id and key, that error, or
    [io.ErrShortWrite] when there is none. *)
Theorem pipeline_short_write (readerGenerator : nat -> Reader)
    (st st1 st2 st3 : World storage) (w : BlobWriter storage) (n m : Z)
    (e : option error) (encryptor : Encryptor) (key0 : string) :
  let ct := encryptAll encryptor (delivered (readerGenerator 1%nat)) in
  let bid0 := hex.EncodeToString (sha512.Sum512 ct) in
  createEncryptor (sha512.Sum512 (delivered (readerGenerator 0%nat))) [] []
    = inl (encryptor, key0) ->
  NewBlobWriter storage bid0 st = (inl w, st1) ->
  Write storage w [validationMethodHash] st1 = ((n, None), st2) ->
  Write storage w ct st2 = ((m, e), st3) ->
  ct <> [] ->
  m <= len ct ->
  e <> None \/ m < len ct ->
  createHashValidatedBlobFromReaderGenerator storage readerGenerator st
  = (Returns (Result bid0 key0
                (Some (match e with Some e' => e' | None => ErrShortWrite end))),
     snd (Cancel storage w st3)).
Proof.
  intros ct bid0 Henc Hnew Htag Hct Hnonempty Hcount Hfail.
  rewrite pipeline_unfold, Henc. cbv zeta. rewrite <- encryptAll_eq.
  fold ct. fold bid0. unfold storeBlob, Buffer_WriteTo.
  rewrite Hnew, Htag. destruct ct as [|c ct'] eqn:Hc; [contradiction|].
  rewrite Hct. destruct (Z.ltb_spec (len (c :: ct')) m); [lia|].
  destruct e as [e'|]; [reflexivity|].
  destruct (Z.eqb_spec m (len (c :: ct'))); [|reflexivity].
  destruct Hfail as [Hfail|Hfail]; [contradiction | lia].
Qed.

Lemma pipeline_decrypts (readerGenerator : nat -> Reader)
    (P : list byte) (st : World storage) (r : result) :
  let run := createHashValidatedBlobFromReaderGenerator (Recording storage)
               readerGenerator (st, []) in
  restartable readerGenerator P ->
  fst run = Returns r ->
  err r = None ->
  exists ct,
    writtenBytes (snd (snd run)) = validationMethodHash :: ct
    /\ forall source : Reader,
         yields source ct ->
         exists decryptor,
           CreateDecryptor (key r) [] source = inl decryptor
           /\ yields decryptor P.
Proof.
  intros run Hgen Hr Herr. subst run. rewrite pipeline_unfold in *.
  destruct (Hgen 0%nat) as [HP0 _]. destruct (Hgen 1%nat) as [HP1 _].
  rewrite HP0, HP1 in *.
  destruct (createEncryptor_of_digest P []) as [[Hmin Henc]|[Hmin Henc]];
    rewrite Henc in *; [cbn in Hr; injection Hr as <-; discriminate Herr|].
  cbn [enc_key enc_iv enc_pos enc_sink app] in *. cbv zeta in *.
  destruct (storeBlob_result _ _ _ _ _ _ Hr) as [Hbid Hkey].
  destruct (storeBlob_recorded_success storage _ _ _ st r Hr Herr) as [w Hlog].
  exists (xorKeyStream (deriveKey (sha512.Sum512 P)) [] 0 P). split.
  - rewrite Hlog. destruct (xorKeyStream _ [] 0 P); cbn;
      rewrite ?app_nil_r; reflexivity.
  - intros source [Hdelivered Herror]. unfold CreateDecryptor.
    rewrite Hkey, parseKey_encodeKey.
    + eexists. split; [reflexivity|]. split.
      * rewrite delivered_decrypting, Hdelivered. apply xorKeyStream_involutive.
      * rewrite readError_decrypting. exact Herror.
    + apply deriveKey_length.
      pose proof (sha512Facts.Sum512_length P) as Hlen.
      unfold sha512.Size in Hlen. lia.
Qed.

(** The capability opens the blob: after a run without error on a
    restartable producer of [P], what the staged writer was handed is the
    tag byte followed by bytes that a decryptor, created from the returned
    key and the empty iv, turns back into [P]. *)
Theorem pipeline_capability_decrypts (readerGenerator : nat -> Reader)
    (P : list byte) (st : World storage) (r : result) :
  let run := createHashValidatedBlobFromReaderGenerator (Recording storage)
               readerGenerator (st, []) in
  restartable readerGenerator P ->
  fst run = Returns r ->
  err r = None ->
  exists ct,
    writtenBytes (snd (snd run)) = validationMethodHash :: ct
    /\ forall source : Reader,
         yields source ct ->
         exists decryptor,
           CreateDecryptor (key r) [] source = inl decryptor
           /\ yields decryptor P.
Proof. apply pipeline_decrypts. Qed.

End PipelinePaths.

Section PipelineDedup.
Context `{suite : CipherSuite}.

Lemma honestWrites_MemoryBlobStorage : honestWrites MemoryBlobStorage.
Proof.
  intros w p m. cbn -[len].
  match goal with
  | |- context [match ?x with _ => _ end] => destruct x as [[blobId content]|]
  end; cbn -[len]; unfold len; lia.
Qed.

(** Storing the same plaintext a second time in the memory storage
    returns the same capability without error and leaves the blobs as the
    first run left them. *)
Theorem pipeline_idempotent_in_memory (readerGenerator : nat -> Reader)
    (P : list byte) (m : MemoryWorld) (r : result) :
  let run1 := createHashValidatedBlobFromReaderGenerator MemoryBlobStorage
                readerGenerator m in
  let run2 := createHashValidatedBlobFromReaderGenerator MemoryBlobStorage
                (fun n => readerGenerator (2 + n)%nat) (snd run1) in
  freshWriters m ->
  restartable readerGenerator P ->
  fst run1 = Returns r ->
  err r = None ->
  fst run2 = Returns r /\ blobs (snd run2) = blobs (snd run1).
Proof.
  intros run1 run2 Hfresh Hgen. subst run1 run2. rewrite !pipeline_unfold.
  destruct (Hgen 0%nat) as [-> _]. destruct (Hgen 1%nat) as [-> _].
  destruct (Hgen 2%nat) as [H2 _]. destruct (Hgen 3%nat) as [H3 _].
  cbn [Nat.add]. rewrite H2, H3.
  destruct (createEncryptor (sha512.Sum512 P) [] []) as [[encryptor key0]|e0];
    [|cbn; intros [= <-] [=]].
  cbv zeta. generalize (enc_sink encryptor ++ xorKeyStream (enc_key encryptor)
    (enc_iv encryptor) (enc_pos encryptor) P).
  intros ct. generalize (hex.EncodeToString (sha512.Sum512 ct)). intros bid0.
  rewrite (memory_storeBlob _ _ _ m) by (apply Hfresh; lia).
  destruct (blobs m !! bid0) as [existing|] eqn:Hbound; cbn [fst snd];
    intros [= <-] Herr; cbn [err] in Herr.
  - destruct (decide (existing = validationMethodHash :: ct)) as [->|];
      [|discriminate Herr].
    rewrite memory_storeBlob by (cbn [staged nextWriter]; apply Hfresh; lia).
    cbn [blobs]. rewrite Hbound. cbn [fst snd blobs].
    destruct (decide (validationMethodHash :: ct = validationMethodHash :: ct));
      [split; reflexivity | contradiction].
  - rewrite memory_storeBlob by (cbn [staged nextWriter]; apply Hfresh; lia).
    cbn [blobs]. rewrite lookup_insert_eq. cbn [fst snd blobs].
    destruct (decide (validationMethodHash :: ct = validationMethodHash :: ct));
      [split; reflexivity | contradiction].
Qed.

End PipelineDedup.

(** ** More on the directory blob writer *)

Section SortInterface.
Context `{format : DirFormat}.

Lemma index_lookup {A} (s : list A) (i : Z) :
  0 <= i ->
  index s i
  = match s !! Z.to_nat i with
    | Some a => Returns a
    | None =>
        Panics ("runtime error: index out of range [" ++ decimal i
                  ++ "] with length " ++ decimal (len s))
    end.
Proof.
  intros Hi. unfold index. destruct (Z.ltb_spec i 0); [lia | reflexivity].
Qed.

Lemma index_in_range {A} (s : list A) (n : nat) (a : A) :
  s !! n = Some a -> index s (Z.of_nat n) = Returns a.
Proof.
  intros Hn. rewrite index_lookup by lia. rewrite Nat2Z.id, Hn. reflexivity.
Qed.




Lemma lookup_adjacent (pre post : list DirEntry) (x y : DirEntry) :
  (pre ++ y :: x :: post) !! List.length pre = Some y
  /\ (pre ++ y :: x :: post) !! S (List.length pre) = Some x.
Proof.
  split.
  - apply list_lookup_middle. reflexivity.
  - rewrite lookup_app_r by (unfold length; lia).
    replace (S (List.length pre) - length pre)%nat with 1%nat
      by (unfold length; lia).
    reflexivity.
Qed.

Lemma Less_adjacent (pre post : list DirEntry) (x y : DirEntry) :
  sortByName_Less (pre ++ y :: x :: post)
    (Z.of_nat (S (List.length pre))) (Z.of_nat (List.length pre))
  = Returns (Less x y).
Proof.
  unfold sortByName_Less. destruct (lookup_adjacent pre post x y) as [Hy Hx].
  rewrite (index_in_range _ _ _ Hx), (index_in_range _ _ _ Hy).
  reflexivity.
Qed.

Lemma Swap_adjacent (pre post : list DirEntry) (x y : DirEntry) :
  sortByName_Swap (pre ++ y :: x :: post)
    (Z.of_nat (S (List.length pre))) (Z.of_nat (List.length pre))
  = Returns (pre ++ x :: y :: post).
Proof.
  unfold sortByName_Swap. destruct (lookup_adjacent pre post x y) as [Hy Hx].
  rewrite (index_in_range _ _ _ Hx), (index_in_range _ _ _ Hy).
  rewrite !Nat2Z.id. f_equal.
  rewrite (insert_app_r_alt pre _ (S (List.length pre))) by (unfold length; lia).
  replace (S (List.length pre) - length pre)%nat with 1%nat by (unfold length; lia).
  cbn [insert list_insert].
  rewrite (insert_app_r_alt pre _ (List.length pre)) by (unfold length; lia).
  replace (List.length pre - length pre)%nat with 0%nat by (unfold length; lia).
  reflexivity.
Qed.

(** The inner loop moves the entry at index [j] down the sorted entries
    before it as [sink] does. *)
Lemma insertionSort_inner_sink (pre : list DirEntry) (x : DirEntry)
    (post : list DirEntry) :
  insertionSort_inner 0 (List.length pre) (pre ++ x :: post)
  = Returns (rev (sink x (rev pre)) ++ post).
Proof.
  revert post. induction pre as [|y pre IH] using rev_ind; intros post.
  - reflexivity.
  - rewrite length_app, Nat.add_1_r, rev_app_distr, <- app_assoc.
    cbn [insertionSort_inner app rev sink]. cbv zeta.
    rewrite Z.add_0_l.
    replace (Z.of_nat (S (List.length pre)) - 1) with (Z.of_nat (List.length pre))
      by lia.
    rewrite Less_adjacent. destruct (Less x y) eqn:Hxy.
    + rewrite Swap_adjacent, IH. cbn [rev]. rewrite <- app_assoc. reflexivity.
    + cbn [rev]. rewrite rev_involutive, <- !app_assoc. reflexivity.
Qed.

Lemma length_sink (x : DirEntry) (before : list DirEntry) :
  List.length (sink x before) = S (List.length before).
Proof.
  induction before as [|y ys IH]; [reflexivity|].
  cbn [sink]. destruct (Less x y); cbn; [rewrite IH|]; reflexivity.
Qed.

Lemma insertionSort_outer_fold (rest before : list DirEntry) :
  insertionSort_outer (List.length rest) 0 (List.length before) (rev before ++ rest)
  = Returns (rev (fold_left (fun before x => sink x before) rest before)).
Proof.
  revert before. induction rest as [|x rest IH]; intros before.
  - cbn. rewrite app_nil_r. reflexivity.
  - cbn [List.length insertionSort_outer fold_left].
    rewrite <- (length_rev before), insertionSort_inner_sink, rev_involutive.
    rewrite length_rev, <- (length_sink x before). apply IH.
Qed.

End SortInterface.

Section DirectoryMore.
Context `{suite : CipherSuite} `{format : DirFormat} {sorting : Sorting}.

(** [sortByName.Less] is a strict weak order that cannot tell apart
    exactly the entries of equal names: what [sort.Sort] needs to sort. *)
Theorem sortByName_Less_strict_weak_order :
  (forall a : DirEntry, Less a a = false)
  /\ (forall a b c : DirEntry, Less a b = true -> Less b c = true -> Less a c = true)
  /\ (forall a b c : DirEntry,
        Less a b = false -> Less b c = false -> Less a c = false)
  /\ (forall a b : DirEntry,
        Less a b = false /\ Less b a = false <-> Name a = Name b).
Proof.
  unfold Less. split; [intros; apply StringOrder.ltb_irrefl|].
  split; [intros a b c; apply StringOrder.ltb_trans|].
  split; [intros a b c; apply StringOrder.ltb_negtrans|].
  intros a b. split.
  - intros [Hab Hba]. apply StringOrder.ltb_total; assumption.
  - intros ->. split; apply StringOrder.ltb_irrefl.
Qed.

(** [sort.insertionSort] run on a [sortByName] through its methods
    [Len], [Less] and [Swap] never indexes out of range and leaves the
    slice with every entry sunk in turn into those before it: the order
    [sort.Sort] leaves of a short slice. *)
Theorem insertionSort_by_sortByName (data : list DirEntry) :
  insertionSort data 0 (sortByName_Len data) = Returns (insertionSorted data).
Proof.
  unfold insertionSort, sortByName_Len, insertionSorted.
  destruct data as [|x rest].
  - reflexivity.
  - replace (Z.to_nat (len (x :: rest) - (0 + 1))) with (List.length rest)
      by (unfold len; cbn [List.length]; lia).
    cbn [fold_left sink].
    exact (insertionSort_outer_fold rest [x]).
Qed.


(** [Finalize] on at most [maxSimpleDirEntries] entries, of equal names or
    not, drops none and adds none: it leaves the writer holding the same
    entries in ascending order of names, and what goes through the pipeline
    is the tag byte, the count of the entries added and these entries
    serialized in that order. *)
Theorem Finalize_keeps_every_entry (storage : BlobStorage)
    (l : list DirEntry) (st : World storage) :
  len l <= maxSimpleDirEntries ->
  let run := DirBlobWriter_Finalize storage (addAll l) st in
  let sorted := entries (snd (fst run)) in
  Permutation sorted l
  /\ StronglySorted nameLe sorted
  /\ (fst (fst run), snd run)
     = createHashValidatedBlobFromReaderGenerator storage
         (fun _ => bytes_NewReader
                     ([blobTypeSimpleStaticDir] ++ serializeInt (len l)
                        ++ flat_map serialize sorted)) st.
Proof.
  intros Hfew run sorted.
  assert (Hrun : run =
            (let (o, st') :=
               createHashValidatedBlobFromReaderGenerator storage
                 (fun _ => bytes_NewReader (dirBuffer (sort_Sort l))) st in
             (o, {| entries := sort_Sort l |}, st'))).
  { subst run. unfold DirBlobWriter_Finalize, finalizeSimple.
    rewrite entries_addAll.
    destruct (Z.leb_spec (len l) maxSimpleDirEntries); [reflexivity | lia]. }
  subst sorted. rewrite Hrun. clear Hrun run.
  destruct (createHashValidatedBlobFromReaderGenerator storage _ st)
    as [o st'] eqn:Hpipeline.
  cbn [fst snd entries].
  split; [apply sort_Sort_Permutation|]. split; [apply sort_Sort_sorted|].
  rewrite <- Hpipeline. unfold dirBuffer.
  replace (len (sort_Sort l)) with (len l); [reflexivity|].
  unfold len. f_equal. symmetry. apply Permutation_length, sort_Sort_Permutation.
Qed.

(** On a storage whose writers never report more bytes than they were
    given, [Finalize] panics exactly when the writer holds more than
    [maxSimpleDirEntries] entries: with exactly that many it returns. *)
Theorem Finalize_panics_iff_too_many (storage : BlobStorage)
    (d : DirBlobWriter) (st : World storage) :
  honestWrites storage ->
  ((exists msg, fst (fst (DirBlobWriter_Finalize storage d st)) = Panics msg)
   <-> maxSimpleDirEntries < len (entries d)).
Proof.
  intros Hhonest. unfold DirBlobWriter_Finalize, finalizeSimple, finalizeSplit.
  destruct (Z.leb_spec (len (entries d)) maxSimpleDirEntries) as [Hfew|Hmany].
  - destruct (pipeline_no_panic storage
                (fun _ => bytes_NewReader (dirBuffer (sort_Sort (entries d)))) st Hhonest)
      as [r Hr].
    destruct (createHashValidatedBlobFromReaderGenerator storage _ st) as [o st'].
    cbn [fst] in *. subst o. split; [intros [msg [=]] | lia].
  - cbn [fst]. split; [intros _; exact Hmany | intros _; eexists; reflexivity].
Qed.

(** [Finalize] sorts the entries of the writer in place: for entries of
    distinct names, a second [Finalize] on the writer it leaves serializes
    the same plaintext, and from the same state of the storage returns the
    same result. *)
Theorem Finalize_again (storage : BlobStorage)
    (d : DirBlobWriter) (st : World storage) :
  List.NoDup (map Name (entries d)) ->
  len (entries d) <= maxSimpleDirEntries ->
  let d' := snd (fst (DirBlobWriter_Finalize storage d st)) in
  entries d' = sort_Sort (entries d)
  /\ dirPlaintext d' = dirPlaintext d
  /\ DirBlobWriter_Finalize storage d' st = DirBlobWriter_Finalize storage d st.
Proof.
  intros Hnames Hfew d'.
  assert (Hd' : d' = {| entries := sort_Sort (entries d) |}).
  { subst d'. unfold DirBlobWriter_Finalize, finalizeSimple.
    destruct (Z.leb_spec (len (entries d)) maxSimpleDirEntries); [|lia].
    destruct (createHashValidatedBlobFromReaderGenerator storage _ st). reflexivity. }
  assert (Hsort : sort_Sort (sort_Sort (entries d)) = sort_Sort (entries d)).
  { apply sort_Sort_insertion_order; [|exact Hnames].
    symmetry. apply sort_Sort_Permutation. }
  rewrite Hd'. cbn [entries]. split; [reflexivity|].
  split; [unfold dirPlaintext; cbn [entries]; rewrite Hsort; reflexivity|].
  unfold DirBlobWriter_Finalize, finalizeSimple. cbn [entries].
  replace (len (sort_Sort (entries d))) with (len (entries d))
    by (unfold len; f_equal; symmetry; apply Permutation_length, sort_Sort_Permutation).
  rewrite Hsort.
  destruct (Z.leb_spec (len (entries d)) maxSimpleDirEntries); [reflexivity | lia].
Qed.

(** The capability of a directory opens its blob: after a [Finalize]
    without error, what the staged writer was handed is the tag byte
    followed by bytes that a decryptor, created from the returned key and
    the empty iv, turns back into the plaintext of the directory. *)
Theorem directory_capability_decrypts (storage : BlobStorage)
    (l : list DirEntry) (st : World storage) (r : result) :
  let run := DirBlobWriter_Finalize (Recording storage) (addAll l) (st, []) in
  len l <= maxSimpleDirEntries ->
  fst (fst run) = Returns r ->
  err r = None ->
  exists ct,
    writtenBytes (snd (snd run)) = validationMethodHash :: ct
    /\ forall source : Reader,
         yields source ct ->
         exists decryptor,
           CreateDecryptor (key r) [] source = inl decryptor
           /\ yields decryptor (dirPlaintext (addAll l)).
Proof.
  intros run Hfew. subst run.
  unfold DirBlobWriter_Finalize, finalizeSimple. rewrite entries_addAll.
  destruct (Z.leb_spec (len l) maxSimpleDirEntries); [|lia].
  cbn [entries].
  pose proof (pipeline_decrypts storage
                (fun _ => bytes_NewReader (dirBuffer (sort_Sort l)))
                (dirBuffer (sort_Sort l)) st r) as Hdec.
  cbv zeta in Hdec.
  destruct (createHashValidatedBlobFromReaderGenerator (Recording storage) _ (st, []))
    as [o st'].
  cbn [fst snd] in *. intros Hr Herr.
  unfold dirPlaintext. rewrite entries_addAll.
  apply Hdec; [|exact Hr|exact Herr].
  intros n. apply yields_bytes_NewReader.
Qed.

End DirectoryMore.

(** ** hexDump *)

Module hexDumpFacts.

Lemma length_append (a b : string) :
  String.length (a ++ b) = (String.length a + String.length b)%nat.
Proof.
  induction a as [|c a IH]; [reflexivity|].
  change (S (String.length (a ++ b)) = S (String.length a + String.length b)).
  f_equal. exact IH.
Qed.

Lemma DecodeString_dots (src : list byte) :
  hex.DecodeString (hex.EncodeToString src ++ "...") = None.
Proof.
  induction src as [|v rest IH]; [reflexivity|].
  destruct (hexFacts.decode_digits v) as (hi & lo & Hhi & Hlo & _).
  change (match hex.fromHexChar (hex.digit (N.shiftr (Byte.to_N v) 4)),
                hex.fromHexChar (hex.digit (N.land (Byte.to_N v) 15)),
                hex.DecodeString (hex.EncodeToString rest ++ "...") with
          | Some a, Some b, Some bs => Some (byte_of_N (a * 16 + b) :: bs)
          | _, _, _ => None
          end = None).
  rewrite Hhi, Hlo, IH. reflexivity.
Qed.

End hexDumpFacts.

(** [hexDump] writes at most 23 characters; a buffer of at most ten bytes
    can be decoded back from its dump, and the dump of a longer one, which
    ends in three dots, is no hexadecimal string. *)
Theorem hexDump_length_and_decoding (buff : list byte) :
  (String.length (hexDump buff) <= 23)%nat
  /\ hex.DecodeString (hexDump buff) = if len buff <=? 10 then Some buff else None.
Proof.
  unfold hexDump.
  destruct (Z.ltb_spec 10 (len buff)) as [Hlong|Hshort];
    destruct (Z.leb_spec (len buff) 10); try lia.
  - split; [|apply hexDumpFacts.DecodeString_dots].
    rewrite hexDumpFacts.length_append, hexFacts.EncodeToString_length.
    pose proof (firstn_le_length 10 buff). cbn. lia.
  - split; [|apply hexFacts.DecodeString_EncodeToString].
    rewrite hexFacts.EncodeToString_length. unfold len in *. lia.
Qed.

(** ** Runs for the theorems above *)

Section MoreRuns.
#[local] Existing Instance Sample.suite.
#[local] Existing Instance Sample.dirFormat.

Lemma pipeline_returns_id_and_key_witness :
  let run := createHashValidatedBlobFromReaderGenerator MemoryBlobStorage
               Sample.helloGenerator Sample.collidingStorage in
  fst run = Returns Sample.collisionResult
  /\ ((64 < MinKeySourceBytes
       /\ Sample.collisionResult = Result "" "" (Some ErrInsufficientKeySource)
       /\ snd run = Sample.collidingStorage)
      \/ (MinKeySourceBytes <= 64
          /\ let k := deriveKey (sha512.Sum512 (delivered (Sample.helloGenerator 0%nat))) in
             key Sample.collisionResult = encodeKey k
             /\ bid Sample.collisionResult
                = hex.EncodeToString
                    (sha512.Sum512
                       (xorKeyStream k [] 0 (delivered (Sample.helloGenerator 1%nat)))))).
Proof.
  assert (Hrun : fst (createHashValidatedBlobFromReaderGenerator MemoryBlobStorage
                        Sample.helloGenerator Sample.collidingStorage)
                 = Returns Sample.collisionResult)
    by (vm_compute; reflexivity).
  split; [exact Hrun|].
  exact (pipeline_returns_id_and_key MemoryBlobStorage Sample.helloGenerator
           Sample.collidingStorage Sample.collisionResult Hrun).
Defined.

Lemma pipeline_depends_on_delivered_bytes_witness :
  delivered (Faulty.brokenHello 0%nat) = delivered (Sample.helloGenerator 0%nat)
  /\ delivered (Faulty.brokenHello 1%nat) = delivered (Sample.helloGenerator 1%nat)
  /\ createHashValidatedBlobFromReaderGenerator MemoryBlobStorage
       Faulty.brokenHello NewMemoryBlobStorage
     = createHashValidatedBlobFromReaderGenerator MemoryBlobStorage
         Sample.helloGenerator NewMemoryBlobStorage.
Proof.
  assert (H0 : delivered (Faulty.brokenHello 0%nat)
               = delivered (Sample.helloGenerator 0%nat)) by reflexivity.
  assert (H1 : delivered (Faulty.brokenHello 1%nat)
               = delivered (Sample.helloGenerator 1%nat)) by reflexivity.
  split; [exact H0|]. split; [exact H1|].
  exact (pipeline_depends_on_delivered_bytes MemoryBlobStorage Faulty.brokenHello
           Sample.helloGenerator NewMemoryBlobStorage H0 H1).
Defined.

Lemma pipeline_returns_on_honest_storage_witness :
  honestWrites MemoryBlobStorage
  /\ exists r,
       fst (createHashValidatedBlobFromReaderGenerator MemoryBlobStorage
              Sample.helloGenerator Sample.collidingStorage) = Returns r.
Proof.
  split; [exact honestWrites_MemoryBlobStorage|].
  exact (pipeline_returns_on_honest_storage MemoryBlobStorage Sample.helloGenerator
           Sample.collidingStorage honestWrites_MemoryBlobStorage).
Defined.

Lemma pipeline_panic_leaves_writer_open_witness :
  let run := createHashValidatedBlobFromReaderGenerator
               (Recording Faulty.Overcounting) Sample.helloGenerator
               (NewMemoryBlobStorage, []) in
  fst run = Panics "bytes.Buffer.WriteTo: invalid Write count"
  /\ exists b w ct,
       ct <> []
       /\ snd (snd run)
          = [CallNewBlobWriter b (Some w); CallWrite w [validationMethodHash];
             CallWrite w ct].
Proof.
  assert (Hrun : fst (createHashValidatedBlobFromReaderGenerator
                        (Recording Faulty.Overcounting) Sample.helloGenerator
                        (NewMemoryBlobStorage, []))
                 = Panics "bytes.Buffer.WriteTo: invalid Write count")
    by (vm_compute; reflexivity).
  split; [exact Hrun|].
  exact (pipeline_panic_leaves_writer_open Faulty.Overcounting Sample.helloGenerator
           NewMemoryBlobStorage _ Hrun).
Defined.

Lemma pipeline_short_write_witness :
  createEncryptor (sha512.Sum512 (delivered (Sample.helloGenerator 0%nat))) [] []
    = inl (Faulty.helloEncryptor, key Sample.helloResult)
  /\ NewBlobWriter Faulty.Undercounting
       (hex.EncodeToString
          (sha512.Sum512
             (encryptAll Faulty.helloEncryptor (delivered (Sample.helloGenerator 1%nat)))))
       NewMemoryBlobStorage
     = (inl 0%nat, Faulty.opened)
  /\ Write Faulty.Undercounting 0%nat [validationMethodHash] Faulty.opened
     = ((0, None), Faulty.tagged)
  /\ Write Faulty.Undercounting 0%nat
       (encryptAll Faulty.helloEncryptor (delivered (Sample.helloGenerator 1%nat)))
       Faulty.tagged
     = ((11, None), Faulty.filled)
  /\ encryptAll Faulty.helloEncryptor (delivered (Sample.helloGenerator 1%nat)) <> []
  /\ 11 <= len (encryptAll Faulty.helloEncryptor (delivered (Sample.helloGenerator 1%nat)))
  /\ createHashValidatedBlobFromReaderGenerator Faulty.Undercounting
       Sample.helloGenerator NewMemoryBlobStorage
     = (Returns (Result
                   (hex.EncodeToString
                      (sha512.Sum512
                         (encryptAll Faulty.helloEncryptor
                            (delivered (Sample.helloGenerator 1%nat)))))
                   (key Sample.helloResult) (Some ErrShortWrite)),
        snd (Cancel Faulty.Undercounting 0%nat Faulty.filled)).
Proof.
  assert (Henc : createEncryptor
                   (sha512.Sum512 (delivered (Sample.helloGenerator 0%nat))) [] []
                 = inl (Faulty.helloEncryptor, key Sample.helloResult))
    by (vm_compute; reflexivity).
  assert (Hnew : NewBlobWriter Faulty.Undercounting
                   (hex.EncodeToString
                      (sha512.Sum512
                         (encryptAll Faulty.helloEncryptor
                            (delivered (Sample.helloGenerator 1%nat)))))
                   NewMemoryBlobStorage
                 = (inl 0%nat, Faulty.opened))
    by (vm_compute; reflexivity).
  assert (Htag : Write Faulty.Undercounting 0%nat [validationMethodHash] Faulty.opened
                 = ((0, None), Faulty.tagged))
    by (vm_compute; reflexivity).
  assert (Hct : Write Faulty.Undercounting 0%nat
                  (encryptAll Faulty.helloEncryptor
                     (delivered (Sample.helloGenerator 1%nat)))
                  Faulty.tagged
                = ((11, None), Faulty.filled))
    by (vm_compute; reflexivity).
  assert (Hnonempty : encryptAll Faulty.helloEncryptor
                        (delivered (Sample.helloGenerator 1%nat)) <> [])
    by (vm_compute; discriminate).
  assert (Hcount : 11 <= len (encryptAll Faulty.helloEncryptor
                                (delivered (Sample.helloGenerator 1%nat))))
    by (vm_compute; discriminate).
  assert (Hshort : @None error <> None
                   \/ 11 < len (encryptAll Faulty.helloEncryptor
                                  (delivered (Sample.helloGenerator 1%nat))))
    by (right; vm_compute; reflexivity).
  split; [exact Henc|]. split; [exact Hnew|]. split; [exact Htag|].
  split; [exact Hct|]. split; [exact Hnonempty|]. split; [exact Hcount|].
  exact (pipeline_short_write Faulty.Undercounting Sample.helloGenerator
           NewMemoryBlobStorage Faulty.opened Faulty.tagged Faulty.filled
           0%nat 0 11 None Faulty.helloEncryptor (key Sample.helloResult)
           Henc Hnew Htag Hct Hnonempty Hcount Hshort).
Defined.

Lemma pipeline_capability_decrypts_witness :
  let run := createHashValidatedBlobFromReaderGenerator
               (Recording MemoryBlobStorage) Sample.helloGenerator
               (NewMemoryBlobStorage, []) in
  restartable Sample.helloGenerator Sample.hello
  /\ fst run = Returns Sample.helloResult
  /\ err Sample.helloResult = None
  /\ exists ct,
       writtenBytes (snd (snd run)) = validationMethodHash :: ct
       /\ forall source : Reader,
            yields source ct ->
            exists decryptor,
              CreateDecryptor (key Sample.helloResult) [] source = inl decryptor
              /\ yields decryptor Sample.hello.
Proof.
  assert (Hgen : restartable Sample.helloGenerator Sample.hello)
    by (intros n; split; reflexivity).
  assert (Hrun : fst (createHashValidatedBlobFromReaderGenerator
                        (Recording MemoryBlobStorage) Sample.helloGenerator
                        (NewMemoryBlobStorage, [])) = Returns Sample.helloResult)
    by (vm_compute; reflexivity).
  assert (Herr : err Sample.helloResult = None) by reflexivity.
  split; [exact Hgen|]. split; [exact Hrun|]. split; [exact Herr|].
  exact (pipeline_capability_decrypts MemoryBlobStorage Sample.helloGenerator
           Sample.hello NewMemoryBlobStorage Sample.helloResult Hgen Hrun Herr).
Defined.

Lemma pipeline_idempotent_in_memory_witness :
  let run1 := createHashValidatedBlobFromReaderGenerator MemoryBlobStorage
                Sample.helloGenerator NewMemoryBlobStorage in
  let run2 := createHashValidatedBlobFromReaderGenerator MemoryBlobStorage
                (fun n => Sample.helloGenerator (2 + n)%nat) (snd run1) in
  freshWriters NewMemoryBlobStorage
  /\ restartable Sample.helloGenerator Sample.hello
  /\ fst run1 = Returns Sample.helloResult
  /\ err Sample.helloResult = None
  /\ fst run2 = Returns Sample.helloResult
  /\ blobs (snd run2) = blobs (snd run1).
Proof.
  assert (Hfresh : freshWriters NewMemoryBlobStorage) by (intros k _; reflexivity).
  assert (Hgen : restartable Sample.helloGenerator Sample.hello)
    by (intros n; split; reflexivity).
  assert (Hrun : fst (createHashValidatedBlobFromReaderGenerator MemoryBlobStorage
                        Sample.helloGenerator NewMemoryBlobStorage)
                 = Returns Sample.helloResult)
    by (vm_compute; reflexivity).
  assert (Herr : err Sample.helloResult = None) by reflexivity.
  split; [exact Hfresh|]. split; [exact Hgen|]. split; [exact Hrun|].
  split; [exact Herr|].
  exact (pipeline_idempotent_in_memory Sample.helloGenerator Sample.hello
           NewMemoryBlobStorage Sample.helloResult Hfresh Hgen Hrun Herr).
Defined.

End MoreRuns.

Section MoreDirectoryRuns.
#[local] Existing Instance Sample.suite.
#[local] Existing Instance Sample.dirFormat.
#[local] Existing Instance insertionSorter.


Lemma Finalize_keeps_every_entry_witness :
  let l := [Sample.entryB; Sample.entryA2; Sample.entryA1] in
  let run := DirBlobWriter_Finalize MemoryBlobStorage (addAll l) NewMemoryBlobStorage in
  len l <= maxSimpleDirEntries
  /\ Permutation (entries (snd (fst run))) l
  /\ StronglySorted nameLe (entries (snd (fst run)))
  /\ (fst (fst run), snd run)
     = createHashValidatedBlobFromReaderGenerator MemoryBlobStorage
         (fun _ => bytes_NewReader
                     ([blobTypeSimpleStaticDir] ++ serializeInt (len l)
                        ++ flat_map serialize (entries (snd (fst run)))))
         NewMemoryBlobStorage.
Proof.
  intros l run.
  assert (Hfew : len l <= maxSimpleDirEntries) by (vm_compute; discriminate).
  split; [exact Hfew|].
  exact (Finalize_keeps_every_entry MemoryBlobStorage l NewMemoryBlobStorage Hfew).
Defined.

Lemma Finalize_panics_iff_too_many_witness :
  honestWrites MemoryBlobStorage
  /\ ((exists msg,
         fst (fst (DirBlobWriter_Finalize MemoryBlobStorage
                     (addAll (Sample.manyEntries 1024)) NewMemoryBlobStorage))
         = Panics msg)
      <-> maxSimpleDirEntries < len (entries (addAll (Sample.manyEntries 1024)))).
Proof.
  split; [exact honestWrites_MemoryBlobStorage|].
  exact (Finalize_panics_iff_too_many MemoryBlobStorage
           (addAll (Sample.manyEntries 1024)) NewMemoryBlobStorage
           honestWrites_MemoryBlobStorage).
Defined.

Lemma Finalize_again_witness :
  let d := addAll Faulty.twoEntries in
  let d' := snd (fst (DirBlobWriter_Finalize MemoryBlobStorage d NewMemoryBlobStorage)) in
  List.NoDup (map Name (entries d))
  /\ len (entries d) <= maxSimpleDirEntries
  /\ entries d' = sort_Sort (entries d)
  /\ dirPlaintext d' = dirPlaintext d
  /\ DirBlobWriter_Finalize MemoryBlobStorage d' NewMemoryBlobStorage
     = DirBlobWriter_Finalize MemoryBlobStorage d NewMemoryBlobStorage.
Proof.
  intros d d'.
  assert (Hnames : List.NoDup (map Name (entries d))).
  { repeat constructor; cbn; intuition discriminate. }
  assert (Hfew : len (entries d) <= maxSimpleDirEntries) by (vm_compute; discriminate).
  split; [exact Hnames|]. split; [exact Hfew|].
  exact (Finalize_again MemoryBlobStorage d NewMemoryBlobStorage Hnames Hfew).
Defined.

Lemma directory_capability_decrypts_witness :
  let run := DirBlobWriter_Finalize (Recording MemoryBlobStorage)
               (addAll Faulty.twoEntries) (NewMemoryBlobStorage, []) in
  len Faulty.twoEntries <= maxSimpleDirEntries
  /\ fst (fst run) = Returns Faulty.directoryResult
  /\ err Faulty.directoryResult = None
  /\ exists ct,
       writtenBytes (snd (snd run)) = validationMethodHash :: ct
       /\ forall source : Reader,
            yields source ct ->
            exists decryptor,
              CreateDecryptor (key Faulty.directoryResult) [] source = inl decryptor
              /\ yields decryptor (dirPlaintext (addAll Faulty.twoEntries)).
Proof.
  assert (Hfew : len Faulty.twoEntries <= maxSimpleDirEntries)
    by (vm_compute; discriminate).
  assert (Hrun : fst (fst (DirBlobWriter_Finalize (Recording MemoryBlobStorage)
                             (addAll Faulty.twoEntries) (NewMemoryBlobStorage, [])))
                 = Returns Faulty.directoryResult)
    by (vm_compute; reflexivity).
  assert (Herr : err Faulty.directoryResult = None) by reflexivity.
  split; [exact Hfew|]. split; [exact Hrun|]. split; [exact Herr|].
  exact (directory_capability_decrypts MemoryBlobStorage Faulty.twoEntries
           NewMemoryBlobStorage Faulty.directoryResult Hfew Hrun Herr).
Defined.

End MoreDirectoryRuns.

(** ** The empty plaintext *)

Section EmptyPlaintext.
Context `{suite : CipherSuite} (storage : BlobStorage).

(** When the second reader delivers nothing, a run without error hands the
    staged writer the tag byte alone, in its only write, and the id is the
    digest of the empty string, whatever the key. *)
Theorem pipeline_empty_plaintext (readerGenerator : nat -> Reader)
    (st : World storage) (r : result) :
  let run := createHashValidatedBlobFromReaderGenerator (Recording storage)
               readerGenerator (st, []) in
  delivered (readerGenerator 1%nat) = [] ->
  fst run = Returns r ->
  err r = None ->
  bid r = "cf83e1357eefb8bdf1542850d66d8007d620e4050b5715dc83f4a921d36ce9ce47d0d13c5d85f2b0ff8318d2877eec2f63b931bd47417a81a538327af927da3e"%string
  /\ exists w,
       snd (snd run)
       = [CallNewBlobWriter (bid r) (Some w); CallWrite w [validationMethodHash];
          CallFinalize w None].
Proof.
  intros run Hempty Hr Herr. subst run. rewrite pipeline_unfold, Hempty in *.
  destruct (createEncryptor_of_digest (delivered (readerGenerator 0%nat)) [])
    as [[Hmin Henc]|[Hmin Henc]];
    rewrite Henc in *; [cbn in Hr; injection Hr as <-; discriminate Herr|].
  cbn [enc_key enc_iv enc_pos enc_sink app xorKeyStream] in *. cbv zeta in *.
  destruct (storeBlob_result _ _ _ _ _ _ Hr) as [Hbid Hkey].
  destruct (storeBlob_recorded_success storage _ _ _ st r Hr Herr) as [w Hlog].
  rewrite Hbid. split; [vm_compute; reflexivity|].
  exists w. exact Hlog.
Qed.

End EmptyPlaintext.

Section EmptyPlaintextRun.
#[local] Existing Instance Sample.suite.

Lemma pipeline_empty_plaintext_witness :
  let run := createHashValidatedBlobFromReaderGenerator
               (Recording MemoryBlobStorage) (fun _ => EOF)
               (NewMemoryBlobStorage, []) in
  let r := Result
             "cf83e1357eefb8bdf1542850d66d8007d620e4050b5715dc83f4a921d36ce9ce47d0d13c5d85f2b0ff8318d2877eec2f63b931bd47417a81a538327af927da3e"
             "01cf83e1357eefb8bdf1542850d66d8007d620e4050b5715dc83f4a921d36ce9ce"
             None in
  delivered EOF = []
  /\ fst run = Returns r
  /\ err r = None
  /\ bid r = "cf83e1357eefb8bdf1542850d66d8007d620e4050b5715dc83f4a921d36ce9ce47d0d13c5d85f2b0ff8318d2877eec2f63b931bd47417a81a538327af927da3e"%string
  /\ exists w,
       snd (snd run)
       = [CallNewBlobWriter (bid r) (Some w); CallWrite w [validationMethodHash];
          CallFinalize w None].
Proof.
  intros run r.
  assert (Hempty : delivered EOF = []) by reflexivity.
  assert (Hrun : fst run = Returns r) by (vm_compute; reflexivity).
  assert (Herr : err r = None) by reflexivity.
  split; [exact Hempty|]. split; [exact Hrun|]. split; [exact Herr|].
  exact (pipeline_empty_plaintext MemoryBlobStorage (fun _ => EOF)
           NewMemoryBlobStorage r Hempty Hrun Herr).
Defined.

End EmptyPlaintextRun.
